(** * OMPL planning context manager

    A shallow embedding of
    [moveit_planners/ompl/ompl_interface/src/planning_context_manager.cpp]:
    the multi-query planner allocator, the state space factory registry and
    the planning context cache of [PlanningContextManager]. *)

From Stdlib Require Import ZArith String Ascii List Lia.
From Stdlib Require Import Floats.PrimFloat.
From stdpp Require Import base option list gmap strings fin_maps.

Local Open Scope string_scope.

(** ** Faults

    C++ control flow that leaves a function without a return value: the two
    exception classes that occur in this file, and the dereference of a null
    shared pointer. *)

Inductive Fault : Type :=
  | bad_lexical_cast     (* boost::bad_lexical_cast *)
  | ompl_Exception       (* ompl::Exception *)
  | null_dereference.    (* operator-> on an empty shared_ptr *)

Inductive Result (A : Type) : Type :=
  | Ok (a : A)
  | Throw (e : Fault).

Arguments Ok {A} a.
Arguments Throw {A} e.

#[global] Instance Result_ret : MRet Result := fun A a => Ok a.
#[global] Instance Result_bind : MBind Result := fun A B k r =>
  match r with
  | Ok a => k a
  | Throw e => Throw e
  end.

Definition returns {A} (r : Result A) : Prop := exists a, r = Ok a.

(** The value and the state a stateful call ends with; no value, and the
    state [d], when it throws. *)
Definition result_value {A S} (r : Result (A * S)) : option A :=
  match r with
  | Ok (a, _) => Some a
  | Throw _ => None
  end.

Definition result_state {A S} (d : S) (r : Result (A * S)) : S :=
  match r with
  | Ok (_, s) => s
  | Throw _ => d
  end.

(** [boost::lexical_cast<bool>] on a string, [None] when it throws
    [bad_lexical_cast].  The library reads an optional sign, any number of
    zeros and a final digit 0 or 1; words such as true are refused. *)

Definition ascii_eqb_c (a b : ascii) : bool := Ascii.eqb a b.

Fixpoint all_zero (cs : list ascii) : bool :=
  match cs with
  | [] => true
  | c :: cs' => ascii_eqb_c c "0"%char && all_zero cs'
  end.

Definition boost_lexical_cast_bool (s : string) : option bool :=
  match rev (list_ascii_of_string s) with
  | [] => None
  | last :: front_rev =>
      let output := ascii_eqb_c last "1"%char in
      if negb output && negb (ascii_eqb_c last "0"%char) then None
      else
        match rev front_rev with
        | [] => Some output
        | first :: rest =>
            let body :=
              if ascii_eqb_c first "+"%char
                 || (ascii_eqb_c first "-"%char && negb output)
              then rest else first :: rest in
            if all_zero body then Some output else None
        end
  end.

(** A call of [boost::lexical_cast<bool>], for a given reading [cast] of the
    library function. *)
Definition lexical_cast (cast : string -> option bool) (v : string) : Result bool :=
  match cast v with
  | Some b => Ok b
  | None => Throw bad_lexical_cast
  end.

(** A conjunction of closed facts about a run, settled one after the other
    by evaluation. *)
Ltac evaluate :=
  first [ apply (bool_decide_unpack _); vm_compute; exact I
        | vm_compute; first [reflexivity | discriminate] ].

Ltac run :=
  repeat (lazymatch goal with |- _ /\ _ => split; [evaluate |] end);
  evaluate.

(** ** Multi-query planner allocator *)

Module Allocator.

(** The algorithm types [registerDefaultPlanners] instantiates the allocator
    templates with. *)
Inductive PlannerType : Type :=
  | AnytimePathShortening | BFMT | BiEST | BiTRRT | BKPIECE1 | EST | FMT
  | KPIECE1 | LazyPRM | LazyPRMstar | LazyRRT | LBKPIECE1 | LBTRRT | PDST
  | PRM | PRMstar | ProjEST | RRT | RRTConnect | RRTstar | SBL | SPARS
  | SPARStwo | STRIDE | TRRT | PRMcustom.

Definition SpaceInformationPtr := nat.

(** [ob::PlannerData]: the exploration graph, seen through the two counts the
    allocator logs. *)
Record PlannerData : Type := {
  data_si : SpaceInformationPtr;
  numVertices : nat;
  numEdges : nat;
}.

Definition empty_data (si : SpaceInformationPtr) : PlannerData :=
  {| data_si := si; numVertices := 0; numEdges := 0 |}.

(** A planner object.  [planner_name] and [planner_params] record what
    [setName] and [params().setParams] were last called with; [None] means
    the allocator never called them on this object. *)
Record Planner : Type := {
  planner_type : PlannerType;
  planner_si : SpaceInformationPtr;
  planner_graph : PlannerData;
  planner_name : option string;
  planner_params : option (gmap string string);
}.

Definition setName (n : string) (p : Planner) : Planner :=
  {| planner_type := planner_type p; planner_si := planner_si p;
     planner_graph := planner_graph p; planner_name := Some n;
     planner_params := planner_params p |}.

Definition setParams (kv : gmap string string) (p : Planner) : Planner :=
  {| planner_type := planner_type p; planner_si := planner_si p;
     planner_graph := planner_graph p; planner_name := planner_name p;
     planner_params := Some kv |}.

(** [planner->getPlannerData(data)]: the planner's graph is written into
    [data], which keeps the space information it was built with. *)
Definition getPlannerData (p : Planner) (data : PlannerData) : PlannerData :=
  {| data_si := data_si data;
     numVertices := numVertices (planner_graph p);
     numEdges := numEdges (planner_graph p) |}.

(** [std::make_shared<T>(si)] *)
Definition make_planner (T : PlannerType) (si : SpaceInformationPtr) : Planner :=
  {| planner_type := T; planner_si := si; planner_graph := empty_data si;
     planner_name := None; planner_params := None |}.

(** [allocatePersistentPlanner<T>(data)]: the default template returns
    [nullptr]; five specialisations build the planner from the data. *)
Definition allocatePersistentPlanner (T : PlannerType) (data : PlannerData)
  : option Planner :=
  match T with
  | PRM | PRMcustom | PRMstar | LazyPRM | LazyPRMstar =>
      Some {| planner_type := T; planner_si := data_si data;
              planner_graph := data; planner_name := None;
              planner_params := None |}
  | _ => None
  end.

Definition supports_persistence (T : PlannerType) : bool :=
  match T with
  | PRM | PRMcustom | PRMstar | LazyPRM | LazyPRMstar => true
  | _ => false
  end.

(** Planner objects live in a store and are named by their address, since a
    planner returned to the caller stays shared with [planners_]. *)
Abbreviation addr := nat (only parsing).
Abbreviation PlannerPtr := (option addr) (only parsing).

Record State : Type := {
  objects : gmap addr Planner;
  planners_ : gmap string PlannerPtr;
  planner_data_storage_paths_ : gmap string string;
}.

Definition initial : State :=
  {| objects := ∅; planners_ := ∅; planner_data_storage_paths_ := ∅ |}.

Definition new_addr (s : State) : addr := fresh (dom (objects s)).

(** Wrapping a raw pointer into a [shared_ptr]: a null pointer stays null, an
    object gets an address of its own. *)
Definition share (o : option Planner) (s : State) : PlannerPtr * State :=
  match o with
  | None => (None, s)
  | Some p =>
      (Some (new_addr s),
       {| objects := <[new_addr s := p]> (objects s);
          planners_ := planners_ s;
          planner_data_storage_paths_ := planner_data_storage_paths_ s |})
  end.

Definition update (a : addr) (f : Planner -> Planner) (s : State) : State :=
  {| objects := alter f a (objects s);
     planners_ := planners_ s;
     planner_data_storage_paths_ := planner_data_storage_paths_ s |}.

Definition set_planner (name : string) (p : PlannerPtr) (s : State) : State :=
  {| objects := objects s;
     planners_ := <[name := p]> (planners_ s);
     planner_data_storage_paths_ := planner_data_storage_paths_ s |}.

Definition set_storage_path (name path : string) (s : State) : State :=
  {| objects := objects s;
     planners_ := planners_ s;
     planner_data_storage_paths_ := <[name := path]> (planner_data_storage_paths_ s) |}.

(** The planner behind a pointer, if the pointer is not null and not
    dangling. *)
Definition deref (s : State) (p : PlannerPtr) : option Planner :=
  a ← p; objects s !! a.

(** [ModelBasedPlanningContextSpecification], as far as the allocator reads
    it. *)
Record ModelBasedPlanningContextSpecification : Type := {
  config_ : gmap string string;
}.

Section WithLibraries.

(** [boost::lexical_cast<bool>] and [PlannerDataStorage::load]. *)
Variable lexical_cast_bool : string -> option bool.
Variable storage_load : string -> SpaceInformationPtr -> PlannerData.

Definition allocatePlannerImpl (T : PlannerType) (si : SpaceInformationPtr)
    (new_name : string) (spec : ModelBasedPlanningContextSpecification)
    (load_planner_data store_planner_data : bool) (file_path : string)
    (s : State) : PlannerPtr * State :=
  (* Try to initialize planner with loaded planner data *)
  let '(planner, s) :=
    if load_planner_data
    then share (allocatePersistentPlanner T (storage_load file_path si)) s
    else (None, s) in
  let '(planner, s) :=
    match planner with
    | None => share (Some (make_planner T si)) s
    | Some a => (Some a, s)
    end in
  match planner with
  | None => (None, s)
  | Some a =>
      let s := if decide (new_name = "") then s else update a (setName new_name) s in
      let s := update a (setParams (config_ spec)) s in
      (* Remember which planner instances to store when the destructor is called *)
      let s := if store_planner_data then set_storage_path new_name file_path s else s in
      (Some a, s)
  end.

Arguments allocatePlannerImpl : simpl never.

(** One reserved key: [cfg.find], and [cfg.erase] when it is there. *)
Definition take_bool (key : string) (cfg : gmap string string)
  : Result (bool * gmap string string) :=
  match cfg !! key with
  | Some v => b ← lexical_cast lexical_cast_bool v; Ok (b, delete key cfg)
  | None => Ok (false, cfg)
  end.

Definition take_string (key : string) (cfg : gmap string string)
  : string * gmap string string :=
  match cfg !! key with
  | Some v => (v, delete key cfg)
  | None => ("", cfg)
  end.

Definition allocatePlanner (T : PlannerType) (si : SpaceInformationPtr)
    (new_name : string) (spec : ModelBasedPlanningContextSpecification)
    (s : State) : Result (PlannerPtr * State) :=
  (* Store planner instance if multi-query planning is enabled *)
  let cfg := config_ spec in
  '(multi_query_planning_enabled, cfg) ← take_bool "multi_query_planning_enabled" cfg;
  if (multi_query_planning_enabled : bool) then
    match planners_ s !! new_name with
    | Some live =>
        (* If we already have an instance, reuse it's planning data *)
        match deref s live with
        | None => Throw null_dereference
        | Some old =>
            let data := getPlannerData old (empty_data si) in
            let '(p, s) := share (allocatePersistentPlanner T data) s in
            Ok (p, set_planner new_name p s)
        end
    | None =>
        '(load_planner_data, cfg) ← take_bool "load_planner_data" cfg;
        '(store_planner_data, cfg) ← take_bool "store_planner_data" cfg;
        let '(planner_data_path, cfg) := take_string "planner_data_path" cfg in
        (* Store planner instance for multi-query use *)
        let '(p, s) :=
          allocatePlannerImpl T si new_name spec
            load_planner_data store_planner_data planner_data_path s in
        Ok (p, set_planner new_name p s)
    end
  else
    (* Return single-shot planner instance *)
    Ok (allocatePlannerImpl T si new_name spec false false "" s).

(** The object [allocatePlannerImpl] starts from: the planner rebuilt from the
    loaded data where that is asked for and supported, a new one otherwise. *)
Definition impl_base (T : PlannerType) (si : SpaceInformationPtr)
    (load_planner_data : bool) (file_path : string) : Planner :=
  match (if load_planner_data
         then allocatePersistentPlanner T (storage_load file_path si)
         else None) with
  | Some p => p
  | None => make_planner T si
  end.

Definition impl_final (T : PlannerType) (si : SpaceInformationPtr)
    (new_name : string) (spec : ModelBasedPlanningContextSpecification)
    (load_planner_data : bool) (file_path : string) : Planner :=
  let base := impl_base T si load_planner_data file_path in
  setParams (config_ spec)
    (if decide (new_name = "") then base else setName new_name base).

End WithLibraries.

Arguments allocatePlannerImpl : simpl never.

End Allocator.

(** ** Planning context manager *)

Module Manager.

(** *** Messages and configuration *)

(** The constraint messages are opaque; only their number is read. *)
Definition PositionConstraint := nat.
Definition OrientationConstraint := nat.

Record Constraints : Type := {
  position_constraints : list PositionConstraint;
  orientation_constraints : list OrientationConstraint;
}.

Definition RobotState := nat.
Definition WorkspaceParameters := nat.
Definition PlanningScene := nat.

Record MotionPlanRequest : Type := {
  group_name : string;
  planner_id : string;
  start_state : RobotState;
  workspace_parameters : WorkspaceParameters;
  path_constraints : Constraints;
  goal_constraints : list Constraints;
}.

Record PlannerConfigurationSettings : Type := {
  group : string;
  name : string;
  config : gmap string string;
}.

Inductive MoveItErrorCodes : Type :=
  | SUCCESS
  | FAILURE
  | INVALID_GROUP_NAME
  | OTHER_CODE (val : Z).

(** *** State space factories *)

Record StateSpace : Type := {
  space_type : string;
  space_group : string;
}.

(** [ModelBasedStateSpaceFactory]: the robot model is fixed for a manager, so
    [canRepresentProblem] is a function of the group and the request. *)
Record ModelBasedStateSpaceFactory : Type := {
  getType : string;
  canRepresentProblem : string -> MotionPlanRequest -> Z;
}.

Definition getNewStateSpace (f : ModelBasedStateSpaceFactory) (group : string) : StateSpace :=
  {| space_type := getType f; space_group := group |}.

(** A nullable [ModelBasedStateSpaceFactoryPtr]. *)
Abbreviation ModelBasedStateSpaceFactoryPtr := (option ModelBasedStateSpaceFactory) (only parsing).

(** [state_space_factories_], which the header declares: the entries (type
    name, factory) in the order in which an iterator from [begin()] to
    [end()] visits them. *)
Abbreviation FactoryMap := (list (string * ModelBasedStateSpaceFactory)) (only parsing).

Fixpoint map_find {V} (k : string) (m : list (string * V)) : option (string * V) :=
  match m with
  | [] => None
  | (k', v) :: m' => if String.eqb k k' then Some (k', v) else map_find k m'
  end.

(** [m[k] = v] on a [std::map]: the entry is overwritten where the key is
    present, and inserted at its place in the key order where it is not. *)
Fixpoint map_assign {V} (k : string) (v : V) (m : list (string * V)) : list (string * V) :=
  match m with
  | [] => [(k, v)]
  | (k', v') :: m' =>
      if String.eqb k k' then (k, v) :: m'
      else if String.ltb k k' then (k, v) :: (k', v') :: m'
      else (k', v') :: map_assign k v m'
  end.

(** Modelled from the spec: [register(factory)] of the state space factory
    registry, which the header defines.  The registry keeps the factories in
    the order of their registration, each under its type name: the first
    entry is the first-registered factory, and an entry comes before another
    when it was registered earlier. *)
Definition registerStateSpaceFactory (f : ModelBasedStateSpaceFactory)
    (fs : FactoryMap) : FactoryMap :=
  (fs ++ [(getType f, f)])%list.

(** [getStateSpaceFactory(factory_type)] *)
Definition getStateSpaceFactory_type (fs : FactoryMap) (factory_type : string)
  : ModelBasedStateSpaceFactoryPtr :=
  let f := if decide (factory_type = "") then head fs else map_find factory_type fs in
  match f with
  | Some (_, fac) => Some fac
  | None => None
  end.

(** The loop of [getStateSpaceFactory(group, req)] over the entries that are
    left, with the current [best] and [prev_priority]. *)
Fixpoint best_factory (group : string) (req : MotionPlanRequest)
    (fs : FactoryMap) (best : ModelBasedStateSpaceFactoryPtr) (prev_priority : Z)
  : ModelBasedStateSpaceFactoryPtr :=
  match fs with
  | [] => best
  | (_, f) :: fs' =>
      let priority := canRepresentProblem f group req in
      if (priority >? prev_priority)%Z
      then best_factory group req fs' (Some f) priority
      else best_factory group req fs' best prev_priority
  end.

(** [getStateSpaceFactory(group, req)] *)
Definition getStateSpaceFactory_problem (fs : FactoryMap) (group : string)
    (req : MotionPlanRequest) : ModelBasedStateSpaceFactoryPtr :=
  best_factory group req fs None 0%Z.

(** *** Planning contexts *)

(** [ModelBasedPlanningContextSpecification]: the configuration, the state
    space, and the path constraints the projected state space was built from
    when the constrained representation is used. *)
Record ModelBasedPlanningContextSpecification : Type := {
  config_ : gmap string string;
  state_space_ : StateSpace;
  constrained_state_space_ : option Constraints;
}.

(** The part of a [ModelBasedPlanningContext] this file writes to. *)
Record ModelBasedPlanningContext : Type := {
  getName : string;
  spec_ : ModelBasedPlanningContextSpecification;
  max_planning_threads : nat;
  max_goal_samples : nat;
  max_state_sampling_attempts : nat;
  max_goal_sampling_attempts : nat;
  max_solution_segment_length : float;
  minimum_waypoint_count : nat;
}.

Definition setMaximumPlanningThreads (v : nat) (c : ModelBasedPlanningContext) :=
  {| getName := getName c; spec_ := spec_ c;
     max_planning_threads := v;
     max_goal_samples := max_goal_samples c;
     max_state_sampling_attempts := max_state_sampling_attempts c;
     max_goal_sampling_attempts := max_goal_sampling_attempts c;
     max_solution_segment_length := max_solution_segment_length c;
     minimum_waypoint_count := minimum_waypoint_count c |}.

Definition setMaximumGoalSamples (v : nat) (c : ModelBasedPlanningContext) :=
  {| getName := getName c; spec_ := spec_ c;
     max_planning_threads := max_planning_threads c;
     max_goal_samples := v;
     max_state_sampling_attempts := max_state_sampling_attempts c;
     max_goal_sampling_attempts := max_goal_sampling_attempts c;
     max_solution_segment_length := max_solution_segment_length c;
     minimum_waypoint_count := minimum_waypoint_count c |}.

Definition setMaximumStateSamplingAttempts (v : nat) (c : ModelBasedPlanningContext) :=
  {| getName := getName c; spec_ := spec_ c;
     max_planning_threads := max_planning_threads c;
     max_goal_samples := max_goal_samples c;
     max_state_sampling_attempts := v;
     max_goal_sampling_attempts := max_goal_sampling_attempts c;
     max_solution_segment_length := max_solution_segment_length c;
     minimum_waypoint_count := minimum_waypoint_count c |}.

Definition setMaximumGoalSamplingAttempts (v : nat) (c : ModelBasedPlanningContext) :=
  {| getName := getName c; spec_ := spec_ c;
     max_planning_threads := max_planning_threads c;
     max_goal_samples := max_goal_samples c;
     max_state_sampling_attempts := max_state_sampling_attempts c;
     max_goal_sampling_attempts := v;
     max_solution_segment_length := max_solution_segment_length c;
     minimum_waypoint_count := minimum_waypoint_count c |}.

Definition setMaximumSolutionSegmentLength (v : float) (c : ModelBasedPlanningContext) :=
  {| getName := getName c; spec_ := spec_ c;
     max_planning_threads := max_planning_threads c;
     max_goal_samples := max_goal_samples c;
     max_state_sampling_attempts := max_state_sampling_attempts c;
     max_goal_sampling_attempts := max_goal_sampling_attempts c;
     max_solution_segment_length := v;
     minimum_waypoint_count := minimum_waypoint_count c |}.

Definition setMinimumWaypointCount (v : nat) (c : ModelBasedPlanningContext) :=
  {| getName := getName c; spec_ := spec_ c;
     max_planning_threads := max_planning_threads c;
     max_goal_samples := max_goal_samples c;
     max_state_sampling_attempts := max_state_sampling_attempts c;
     max_goal_sampling_attempts := max_goal_sampling_attempts c;
     max_solution_segment_length := max_solution_segment_length c;
     minimum_waypoint_count := v |}.

Definition setSpecificationConfig (kv : gmap string string) (c : ModelBasedPlanningContext) :=
  {| getName := getName c;
     spec_ := {| config_ := kv; state_space_ := state_space_ (spec_ c);
                 constrained_state_space_ := constrained_state_space_ (spec_ c) |};
     max_planning_threads := max_planning_threads c;
     max_goal_samples := max_goal_samples c;
     max_state_sampling_attempts := max_state_sampling_attempts c;
     max_goal_sampling_attempts := max_goal_sampling_attempts c;
     max_solution_segment_length := max_solution_segment_length c;
     minimum_waypoint_count := minimum_waypoint_count c |}.

(** The methods of [ModelBasedPlanningContext] that are defined outside this
    file.  [setPathConstraints] and [setGoalConstraints] return their result
    together with the error code they leave behind.  [configure], the call
    inside the try block, may throw; the other methods are followed on the
    calls that return, and nothing below says what happens when one of them
    throws. *)
Class ContextMethods : Type := {
  construct : string -> ModelBasedPlanningContextSpecification -> ModelBasedPlanningContext;
  clear : ModelBasedPlanningContext -> ModelBasedPlanningContext;
  getCurrentStateUpdated : PlanningScene -> RobotState -> RobotState;
  setPlanningScene : PlanningScene -> ModelBasedPlanningContext -> ModelBasedPlanningContext;
  setMotionPlanRequest : MotionPlanRequest -> ModelBasedPlanningContext -> ModelBasedPlanningContext;
  setCompleteInitialState : RobotState -> ModelBasedPlanningContext -> ModelBasedPlanningContext;
  setPlanningVolume : WorkspaceParameters -> ModelBasedPlanningContext -> ModelBasedPlanningContext;
  setPathConstraints :
    Constraints -> MoveItErrorCodes -> ModelBasedPlanningContext ->
    bool * MoveItErrorCodes * ModelBasedPlanningContext;
  setGoalConstraints :
    list Constraints -> Constraints -> MoveItErrorCodes -> ModelBasedPlanningContext ->
    bool * MoveItErrorCodes * ModelBasedPlanningContext;
  configure : bool -> ModelBasedPlanningContext -> Result ModelBasedPlanningContext;
}.

(** *** The manager *)

Record PlanningContextManager : Type := {
  planner_configs_ : gmap string PlannerConfigurationSettings;
  state_space_factories_ : FactoryMap;
  max_goal_samples_ : nat;
  max_state_sampling_attempts_ : nat;
  max_goal_sampling_attempts_ : nat;
  max_planning_threads_ : nat;
  max_solution_segment_length_ : float;
  minimum_waypoint_count_ : nat;
}.

(** [std::numeric_limits<double>::epsilon()] *)
Definition epsilon : float := 0x1p-52%float.

(** Context objects live in a store and are named by their address.  An
    object is never taken out of the store, so an address is not used twice
    and equal pointers mean the same object.  [holders] counts the
    [shared_ptr] copies outside the cache: a cached pointer is [unique()]
    exactly when it has none. *)
Abbreviation addr := nat (only parsing).
Abbreviation ModelBasedPlanningContextPtr := (option addr) (only parsing).

Record State : Type := {
  objects : gmap addr ModelBasedPlanningContext;
  holders : gmap addr nat;
  contexts_ : gmap (string * string) (list addr);
}.

Definition initial : State :=
  {| objects := ∅; holders := ∅; contexts_ := ∅ |}.

Definition holders_of (s : State) (a : addr) : nat := default 0 (holders s !! a).

Definition unique (s : State) (a : addr) : bool := Nat.eqb (holders_of s a) 0.

Definition new_addr (s : State) : addr := fresh (dom (objects s)).

Definition make_shared (c : ModelBasedPlanningContext) (s : State) : addr * State :=
  (new_addr s,
   {| objects := <[new_addr s := c]> (objects s);
      holders := holders s;
      contexts_ := contexts_ s |}).

Definition update (a : addr) (f : ModelBasedPlanningContext -> ModelBasedPlanningContext)
    (s : State) : State :=
  {| objects := alter f a (objects s);
     holders := holders s;
     contexts_ := contexts_ s |}.

Definition cache_entry (s : State) (key : string * string) : list addr :=
  default [] (contexts_ s !! key).

(** [contexts_[key].push_back(a)] *)
Definition push_back (key : string * string) (a : addr) (s : State) : State :=
  {| objects := objects s;
     holders := holders s;
     contexts_ := <[key := (cache_entry s key ++ [a])%list]> (contexts_ s) |}.

(** The object behind a pointer is left in a new state. *)
Definition store (a : addr) (c : ModelBasedPlanningContext) (s : State) : State :=
  {| objects := <[a := c]> (objects s);
     holders := holders s;
     contexts_ := contexts_ s |}.

(** A pointer is handed to a caller, and given up by one. *)
Definition hold (a : addr) (s : State) : State :=
  {| objects := objects s;
     holders := <[a := S (holders_of s a)]> (holders s);
     contexts_ := contexts_ s |}.

Definition release (a : addr) (s : State) : State :=
  {| objects := objects s;
     holders := <[a := pred (holders_of s a)]> (holders s);
     contexts_ := contexts_ s |}.

Section WithLibraries.

(** [boost::lexical_cast<bool>], the methods of the context class, and the
    two type names [ConstrainedPlanningStateSpace::PARAMETERIZATION_TYPE] and
    [JointModelStateSpace::PARAMETERIZATION_TYPE]. *)
Variable lexical_cast_bool : string -> option bool.
Context {methods : ContextMethods}.
Variable CONSTRAINED_TYPE : string.
Variable JOINT_TYPE : string.

(** The calls that end [getPlanningContext(config, factory, req)]: the
    limits of the manager and the configuration are set on the context. *)
Definition apply_limits (m : PlanningContextManager)
    (pconfig : PlannerConfigurationSettings) (context : ModelBasedPlanningContext)
  : ModelBasedPlanningContext :=
  let context := setMaximumPlanningThreads (max_planning_threads_ m) context in
  let context := setMaximumGoalSamples (max_goal_samples_ m) context in
  let context := setMaximumStateSamplingAttempts (max_state_sampling_attempts_ m) context in
  let context := setMaximumGoalSamplingAttempts (max_goal_sampling_attempts_ m) context in
  let context :=
    if PrimFloat.ltb epsilon (max_solution_segment_length_ m)
    then setMaximumSolutionSegmentLength (max_solution_segment_length_ m) context
    else context in
  let context := setMinimumWaypointCount (minimum_waypoint_count_ m) context in
  setSpecificationConfig (config pconfig) context.

(** [getPlanningContext(config, factory, req)] *)
Definition getPlanningContext_factory (m : PlanningContextManager)
    (pconfig : PlannerConfigurationSettings)
    (factory : ModelBasedStateSpaceFactoryPtr) (req : MotionPlanRequest)
    (s : State) : Result (ModelBasedPlanningContextPtr * State) :=
  match factory with
  | None => Throw null_dereference
  | Some factory =>
      let key := (name pconfig, getType factory) in
      (* Check for a cached planning context *)
      let context :=
        match contexts_ s !! key with
        | Some cached_contexts => List.find (unique s) cached_contexts
        | None => None
        end in
      let '(context, s) :=
        match context with
        | Some cached_context => (cached_context, hold cached_context s)
        | None =>
            (* Create a new planning context *)
            let context_spec :=
              {| config_ := config pconfig;
                 state_space_ := getNewStateSpace factory (group pconfig);
                 constrained_state_space_ :=
                   if decide (getType factory = CONSTRAINED_TYPE)
                   then Some (path_constraints req) else None |} in
            let '(context, s) := make_shared (construct (name pconfig) context_spec) s in
            let s := hold context s in
            (* Do not cache a constrained planning context, as the constraints
               could be changed and need to be parsed again. *)
            let s := if decide (getType factory <> CONSTRAINED_TYPE)
                     then push_back key context s else s in
            (context, s)
        end in
      let s := update context (apply_limits m pconfig) s in
      Ok (Some context, s)
  end.

(** [it != config.end() && boost::lexical_cast<bool>(it->second)] *)
Definition config_flag (cfg : gmap string string) (key : string) : Result bool :=
  match cfg !! key with
  | Some v => lexical_cast lexical_cast_bool v
  | None => Ok false
  end.

(** The state space selection of [getPlanningContext(planning_scene, req, ...)]. *)
Definition select_factory (m : PlanningContextManager)
    (pc : PlannerConfigurationSettings) (req : MotionPlanRequest)
  : Result ModelBasedStateSpaceFactoryPtr :=
  constrained ← config_flag (config pc) "enforce_constrained_state_space";
  if (constrained : bool)
     && (Nat.eqb (length (position_constraints (path_constraints req))) 1
         || Nat.eqb (length (orientation_constraints (path_constraints req))) 1)
  then Ok (getStateSpaceFactory_type (state_space_factories_ m) CONSTRAINED_TYPE)
  else
    joint ← config_flag (config pc) "enforce_joint_model_state_space";
    if (joint : bool)
    then Ok (getStateSpaceFactory_type (state_space_factories_ m) JOINT_TYPE)
    else Ok (getStateSpaceFactory_problem (state_space_factories_ m) (group pc) req).

(** The planning configuration a request resolves to. *)
Definition find_config (m : PlanningContextManager) (req : MotionPlanRequest)
  : option PlannerConfigurationSettings :=
  let pc :=
    if decide (planner_id req <> "")
    then planner_configs_ m !!
           (match String.index 0 (group_name req) (planner_id req) with
            | None => group_name req ++ "[" ++ planner_id req ++ "]"
            | Some _ => planner_id req
            end)
    else None in
  match pc with
  | Some c => Some c
  | None => planner_configs_ m !! group_name req
  end.

(** A method call through a context pointer. *)
Definition call {A} (a : addr)
    (f : ModelBasedPlanningContext -> A * ModelBasedPlanningContext)
    (s : State) : Result (A * State) :=
  match objects s !! a with
  | None => Throw null_dereference
  | Some c =>
      let '(r, c') := f c in
      Ok (r, store a c' s)
  end.

(** [getPlanningContext(planning_scene, req, error_code, node,
    use_constraints_approximation)]: the context that is returned, the value
    left in [error_code], and the state of the cache. *)
Definition getPlanningContext (m : PlanningContextManager)
    (planning_scene : option PlanningScene) (req : MotionPlanRequest)
    (use_constraints_approximation : bool) (s : State)
  : Result (ModelBasedPlanningContextPtr * MoveItErrorCodes * State) :=
  if decide (group_name req = "") then Ok (None, INVALID_GROUP_NAME, s)
  else
    let error_code := FAILURE in
    match planning_scene with
    | None => Ok (None, error_code, s)
    | Some scene =>
        (* identify the correct planning configuration *)
        match find_config m req with
        | None => Ok (None, error_code, s)
        | Some pc =>
            factory ← select_factory m pc req;
            '(context, s) ← getPlanningContext_factory m pc factory req s;
            match context with
            | None => Ok (None, error_code, s)
            | Some a =>
                '(_, s) ← call a (fun c => (tt, clear c)) s;
                let start_state := getCurrentStateUpdated scene (start_state req) in
                (* Setup the context *)
                '(_, s) ← call a (fun c => (tt, setPlanningScene scene c)) s;
                '(_, s) ← call a (fun c => (tt, setMotionPlanRequest req c)) s;
                '(_, s) ← call a (fun c => (tt, setCompleteInitialState start_state c)) s;
                '(_, s) ← call a (fun c => (tt, setPlanningVolume (workspace_parameters req) c)) s;
                '(r, s) ← call a (setPathConstraints (path_constraints req) error_code) s;
                let '(ok, error_code) := r in
                if negb ok then Ok (None, error_code, release a s)
                else
                  '(r, s) ← call a (setGoalConstraints (goal_constraints req)
                                      (path_constraints req) error_code) s;
                  let '(ok, error_code) := r in
                  if negb ok then Ok (None, error_code, release a s)
                  else
                    match objects s !! a with
                    | None => Throw null_dereference
                    | Some c =>
                        match configure use_constraints_approximation c with
                        | Ok c' => Ok (Some a, SUCCESS, store a c' s)
                        | Throw ompl_Exception =>
                            (* context.reset() *)
                            Ok (None, error_code, release a s)
                        | Throw e => Throw e
                        end
                    end
            end
        end
    end.

End WithLibraries.

End Manager.

(** * Properties of the allocator *)

Module AllocatorTheory.
Import Allocator.

Section WithLibraries.

Variable lexical_cast_bool : string -> option bool.
Variable storage_load : string -> SpaceInformationPtr -> PlannerData.

Local Abbreviation allocatePlannerImpl := (allocatePlannerImpl storage_load).
Local Abbreviation allocatePlanner := (allocatePlanner lexical_cast_bool storage_load).
Local Abbreviation impl_final := (impl_final storage_load).

Lemma planner_addr_fresh (s : State) : objects s !! new_addr s = None.
Proof. apply not_elem_of_dom. unfold new_addr. apply is_fresh. Qed.

Lemma allocatePlannerImpl_eq T si new_name spec load store file_path s :
  allocatePlannerImpl T si new_name spec load store file_path s =
  (Some (new_addr s),
   {| objects := <[new_addr s := impl_final T si new_name spec load file_path]> (objects s);
      planners_ := planners_ s;
      planner_data_storage_paths_ :=
        if store then <[new_name := file_path]> (planner_data_storage_paths_ s)
        else planner_data_storage_paths_ s |}).
Proof.
  unfold allocatePlannerImpl, impl_final, impl_base.
  destruct (if load then allocatePersistentPlanner T (storage_load file_path si) else None)
    as [p|] eqn:Hp.
  - assert (Hs : (if load then share (allocatePersistentPlanner T (storage_load file_path si)) s
                  else (None, s)) = share (Some p) s).
    { destruct load; [by rewrite Hp | discriminate]. }
    rewrite Hs. cbn [share].
    destruct (decide (new_name = "")), store; cbn;
      unfold update, set_storage_path; cbn;
      rewrite ?alter_insert_eq; reflexivity.
  - assert (Hs : (if load then share (allocatePersistentPlanner T (storage_load file_path si)) s
                  else (None, s)) = (None, s)).
    { destruct load; [by rewrite Hp | reflexivity]. }
    rewrite Hs. cbn [share].
    destruct (decide (new_name = "")), store; cbn;
      unfold update, set_storage_path; cbn;
      rewrite ?alter_insert_eq; reflexivity.
Qed.

(** [allocatePlannerImpl] never returns a null planner, also for a type
    without persistent reconstruction. *)
Lemma allocatePlannerImpl_not_null T si new_name spec load store file_path s :
  exists a p,
    fst (allocatePlannerImpl T si new_name spec load store file_path s) = Some a /\
    objects (snd (allocatePlannerImpl T si new_name spec load store file_path s)) !! a = Some p /\
    planner_type p = T /\
    planner_params p = Some (config_ spec) /\
    (new_name <> "" -> planner_name p = Some new_name).
Proof.
  rewrite allocatePlannerImpl_eq. cbn.
  eexists _, _. split; [reflexivity|]. split; [apply lookup_insert_eq|].
  unfold impl_final, impl_base.
  repeat split.
  - destruct load; cbn; [|by destruct (decide _)].
    destruct T; cbn; by destruct (decide _).
  - intros Hne. destruct (decide (new_name = "")); [done|reflexivity].
Qed.

(** Without a live instance under the name, the map handed to [setParams] is
    [spec.config_] itself, reserved keys included. *)
Lemma allocatePlanner_params_no_live T si new_name spec s p s' :
  planners_ s !! new_name = None ->
  allocatePlanner T si new_name spec s = Ok (p, s') ->
  exists a pl, p = Some a /\ objects s' !! a = Some pl /\
               planner_params pl = Some (config_ spec).
Proof.
  intros Hlive. unfold allocatePlanner, take_bool, take_string.
  destruct (config_ spec !! "multi_query_planning_enabled") as [v|]; cbn.
  - destruct (lexical_cast lexical_cast_bool v) as [[|]|] eqn:Hv; cbn; [| |discriminate].
    + rewrite Hlive.
      destruct (delete _ _ !! "load_planner_data") as [v1|]; cbn.
      * destruct (lexical_cast lexical_cast_bool v1) as [b1|]; cbn; [|discriminate].
        destruct (delete _ _ !! "store_planner_data") as [v2|]; cbn.
        -- destruct (lexical_cast lexical_cast_bool v2) as [b2|]; cbn; [|discriminate].
           destruct (delete _ _ !! "planner_data_path"); rewrite allocatePlannerImpl_eq;
             intros [= <- <-]; eexists _, _; (split; [reflexivity|]); cbn;
             (split; [apply lookup_insert_eq | reflexivity]).
        -- destruct (delete _ _ !! "planner_data_path"); rewrite allocatePlannerImpl_eq;
             intros [= <- <-]; eexists _, _; (split; [reflexivity|]); cbn;
             (split; [apply lookup_insert_eq | reflexivity]).
      * destruct (delete _ _ !! "store_planner_data") as [v2|]; cbn.
        -- destruct (lexical_cast lexical_cast_bool v2) as [b2|]; cbn; [|discriminate].
           destruct (delete _ _ !! "planner_data_path"); rewrite allocatePlannerImpl_eq;
             intros [= <- <-]; eexists _, _; (split; [reflexivity|]); cbn;
             (split; [apply lookup_insert_eq | reflexivity]).
        -- destruct (delete _ _ !! "planner_data_path"); rewrite allocatePlannerImpl_eq;
             intros [= <- <-]; eexists _, _; (split; [reflexivity|]); cbn;
             (split; [apply lookup_insert_eq | reflexivity]).
    + rewrite allocatePlannerImpl_eq. intros [= <- <-].
      eexists _, _. split; [reflexivity|]. cbn. split; [apply lookup_insert_eq | reflexivity].
  - rewrite allocatePlannerImpl_eq. intros [= <- <-].
    eexists _, _. split; [reflexivity|]. cbn. split; [apply lookup_insert_eq | reflexivity].
Qed.

(** With multi-query planning enabled and a live instance under the name,
    the result is what [allocatePersistentPlanner] gives for the graph of that
    instance: [allocatePlannerImpl] is not reached. *)
Lemma allocatePlanner_live T si new_name spec s v a old :
  config_ spec !! "multi_query_planning_enabled" = Some v ->
  lexical_cast_bool v = Some true ->
  planners_ s !! new_name = Some (Some a) ->
  objects s !! a = Some old ->
  allocatePlanner T si new_name spec s =
  Ok (let '(p, s1) := share (allocatePersistentPlanner T (getPlannerData old (empty_data si))) s in
      (p, set_planner new_name p s1)).
Proof.
  intros Hcfg Hv Hlive Hold. unfold allocatePlanner, take_bool.
  rewrite Hcfg. unfold lexical_cast. rewrite Hv. cbn. rewrite Hlive. cbn.
  rewrite Hold. by destruct (share _ _).
Qed.

Lemma allocatePlanner_live_unsupported T si new_name spec s v a old :
  supports_persistence T = false ->
  config_ spec !! "multi_query_planning_enabled" = Some v ->
  lexical_cast_bool v = Some true ->
  planners_ s !! new_name = Some (Some a) ->
  objects s !! a = Some old ->
  allocatePlanner T si new_name spec s = Ok (None, set_planner new_name None s).
Proof.
  intros HT Hcfg Hv Hlive Hold.
  rewrite (allocatePlanner_live _ _ _ _ _ _ _ _ Hcfg Hv Hlive Hold).
  by destruct T.
Qed.

Lemma allocatePlanner_live_supported T si new_name spec s v a old :
  supports_persistence T = true ->
  config_ spec !! "multi_query_planning_enabled" = Some v ->
  lexical_cast_bool v = Some true ->
  planners_ s !! new_name = Some (Some a) ->
  objects s !! a = Some old ->
  exists s' pl,
    allocatePlanner T si new_name spec s = Ok (Some (new_addr s), s') /\
    objects s' !! new_addr s = Some pl /\
    planner_graph pl = getPlannerData old (empty_data si) /\
    planner_name pl = None /\ planner_params pl = None.
Proof.
  intros HT Hcfg Hv Hlive Hold.
  rewrite (allocatePlanner_live _ _ _ _ _ _ _ _ Hcfg Hv Hlive Hold).
  destruct T; try discriminate; cbn;
    eexists _, _; (split; [reflexivity|]); cbn;
    (split; [apply lookup_insert_eq|]); done.
Qed.

End WithLibraries.

(** *** Runs of the allocator

    The library functions are read as Boost reads a boolean, and as a storage
    whose file cannot be loaded, which leaves the data empty. *)

Definition no_file (file_path : string) (si : SpaceInformationPtr) : PlannerData :=
  empty_data si.

Definition prm_config : gmap string string :=
  list_to_map
    [("multi_query_planning_enabled", "1"); ("load_planner_data", "0");
     ("store_planner_data", "1"); ("planner_data_path", "/tmp/arm_prm.graph");
     ("max_nearest_neighbors", "10")].

Definition rrt_config : gmap string string :=
  list_to_map [("multi_query_planning_enabled", "1"); ("range", "0.5")].

(** A planning query has run on the planner at [a] and left it with the
    graph [g]. *)
Definition planned (a : addr) (g : PlannerData) (s : State) : State :=
  update a (fun p =>
    {| planner_type := planner_type p; planner_si := planner_si p;
       planner_graph := g; planner_name := planner_name p;
       planner_params := planner_params p |}) s.

(** The planner a call of the allocator returns. *)
Definition planner_of (r : Result (option nat * State)) : option Planner :=
  match r with
  | Ok (p, s) => deref s p
  | Throw _ => None
  end.

Definition allocate (T : PlannerType) (new_name : string)
    (kv : gmap string string) (s : State) : Result (option nat * State) :=
  Allocator.allocatePlanner boost_lexical_cast_bool no_file T 0 new_name
    {| config_ := kv |} s.

(** C4: the first allocation of a PRM planner with multi-query planning
    enabled hands the whole configuration to the parameter system of the
    planner: the four reserved keys are still in it, although
    [allocatePlanner] erased them from its local copy. *)
Theorem allocatePlanner_forwards_reserved_keys :
  let r := allocate PRM "arm[PRM]" prm_config initial in
  let kv := planner_of r ≫= planner_params in
  is_Some (result_value r) /\
  kv ≫= lookup "multi_query_planning_enabled" = Some "1" /\
  kv ≫= lookup "load_planner_data" = Some "0" /\
  kv ≫= lookup "store_planner_data" = Some "1" /\
  kv ≫= lookup "planner_data_path" = Some "/tmp/arm_prm.graph" /\
  kv = Some prm_config.
Proof.
  cbv zeta. split; [vm_compute; eauto|]. run.
Qed.

(** C5: RRTConnect has no persistent reconstruction.  With multi-query
    planning enabled the first allocation under a name builds a planner; the
    second one, which finds that live instance, returns a null planner and
    stores it under the name; the third one dereferences it. *)
Theorem allocatePlanner_reuse_returns_null :
  let r1 := allocate RRTConnect "arm[RRTConnect]" rrt_config initial in
  let r2 := allocate RRTConnect "arm[RRTConnect]" rrt_config (result_state initial r1) in
  let r3 := allocate RRTConnect "arm[RRTConnect]" rrt_config (result_state initial r2) in
  result_value r1 = Some (Some 0) /\
  planner_type <$> planner_of r1 = Some RRTConnect /\
  result_value r2 = Some None /\
  planners_ (result_state initial r2) !! "arm[RRTConnect]" = Some None /\
  r3 = Throw null_dereference.
Proof.
  cbv zeta. run.
Qed.

(** C6: a PRM planner allocated twice under one name with multi-query
    planning enabled.  The first planner carries the name and the parameters;
    the second one is a new object seeded with the graph of the first, on
    which neither the name nor the parameters were set. *)
Theorem allocatePlanner_reuse_skips_name_and_params :
  let g := {| data_si := 0; numVertices := 12; numEdges := 30 |} in
  let r1 := allocate PRM "arm[PRM]" prm_config initial in
  let r2 := allocate PRM "arm[PRM]" prm_config (planned 0 g (result_state initial r1)) in
  result_value r1 = Some (Some 0) /\
  planner_name <$> planner_of r1 = Some (Some "arm[PRM]") /\
  planner_params <$> planner_of r1 = Some (Some prm_config) /\
  result_value r2 = Some (Some 1) /\
  planner_graph <$> planner_of r2 = Some g /\
  planner_name <$> planner_of r2 = Some None /\
  planner_params <$> planner_of r2 = Some None.
Proof.
  cbv zeta. run.
Qed.

End AllocatorTheory.

(** * Properties of the manager *)

Module ManagerTheory.
Import Manager.

(** ** Selection of the state space factory by priority *)

Section Priority.

Variable group : string.
Variable req : MotionPlanRequest.

Local Abbreviation score f := (canRepresentProblem f group req).

(** The loop keeps [best] when nothing that is left beats [prev_priority],
    and otherwise ends on the first entry that reaches the greatest
    priority. *)
Lemma best_factory_spec (fs : FactoryMap) best p :
  (best_factory group req fs best p = best /\
   forall k g, (k, g) ∈ fs -> (score g <= p)%Z)
  \/
  (exists i k f,
     best_factory group req fs best p = Some f /\
     fs !! i = Some (k, f) /\
     (p < score f)%Z /\
     (forall j k' g, fs !! j = Some (k', g) -> (score g <= score f)%Z) /\
     (forall j k' g, j < i -> fs !! j = Some (k', g) -> (score g < score f)%Z)).
Proof.
  revert best p. induction fs as [|[k f] fs IH]; intros best p; cbn [best_factory].
  - left. split; [reflexivity|]. intros k g H. by apply elem_of_nil in H.
  - destruct (Z.gtb_spec (score f) p) as [Hgt|Hle].
    + destruct (IH (Some f) (score f)) as [[Heq Hall]|(i & k' & f' & Heq & Hi & Hp & Hmax & Hfirst)].
      * right. exists 0, k, f. split_and!; [done|done|lia| |].
        -- intros [|j] k' g Hj; cbn in Hj.
           ++ injection Hj as <- <-. lia.
           ++ apply (Hall k'). eapply list_elem_of_lookup_2, Hj.
        -- intros j k' g Hj. lia.
      * right. exists (S i), k', f'. split_and!; [done|done|lia| |].
        -- intros [|j] k'' g Hj; cbn in Hj.
           ++ injection Hj as <- <-. lia.
           ++ by eapply Hmax.
        -- intros [|j] k'' g Hlt Hj; cbn in Hj.
           ++ injection Hj as <- <-. lia.
           ++ eapply (Hfirst j); [lia|done].
    + destruct (IH best p) as [[Heq Hall]|(i & k' & f' & Heq & Hi & Hp & Hmax & Hfirst)].
      * left. split; [done|]. intros k' g [[= -> ->]|Hin]%elem_of_cons; [lia|by eapply Hall].
      * right. exists (S i), k', f'. split_and!; [done|done|lia| |].
        -- intros [|j] k'' g Hj; cbn in Hj.
           ++ injection Hj as <- <-. lia.
           ++ by eapply Hmax.
        -- intros [|j] k'' g Hlt Hj; cbn in Hj.
           ++ injection Hj as <- <-. lia.
           ++ eapply (Hfirst j); [lia|done].
Qed.

End Priority.

(** Selection by problem returns the entry of [state_space_factories_] with
    the greatest priority, provided that priority is above zero; among entries
    of equal priority the one the iteration visits first wins, since the
    comparison is strict; and the result is empty exactly when no entry has a
    priority above zero. *)
Lemma getStateSpaceFactory_problem_first_seen (fs : FactoryMap)
    (group : string) (req : MotionPlanRequest) :
  let score f := canRepresentProblem f group req in
  (getStateSpaceFactory_problem fs group req = None <->
     forall k g, (k, g) ∈ fs -> (score g <= 0)%Z) /\
  (forall f, getStateSpaceFactory_problem fs group req = Some f ->
     exists i k, fs !! i = Some (k, f) /\ (0 < score f)%Z /\
       (forall j k' g, fs !! j = Some (k', g) -> (score g <= score f)%Z) /\
       (forall j k' g, j < i -> fs !! j = Some (k', g) -> (score g < score f)%Z)).
Proof.
  intros score. unfold getStateSpaceFactory_problem.
  destruct (best_factory_spec group req fs None 0)
    as [[Heq Hall]|(i & k & f & Heq & Hi & Hp & Hmax & Hfirst)].
  - split.
    + split; [intros _; exact Hall | intros _; exact Heq].
    + intros f Hf. rewrite Heq in Hf. discriminate.
  - split.
    + split.
      * intros Hnone. rewrite Heq in Hnone. discriminate.
      * intros Hall. pose proof (Hall k f (list_elem_of_lookup_2 _ _ _ Hi)).
        unfold score in *. lia.
    + intros f' Hf'. rewrite Heq in Hf'. injection Hf' as <-.
      exists i, k. split_and!; done.
Qed.

(** *** Registration order *)

(** The registry after the factories of [l] were registered one after the
    other, the head of [l] first. *)
Definition register_all (l : list ModelBasedStateSpaceFactory) : FactoryMap :=
  foldl (fun fs f => registerStateSpaceFactory f fs) [] l.

Lemma register_all_entries (l : list ModelBasedStateSpaceFactory) :
  register_all l = (fun f => (getType f, f)) <$> l.
Proof.
  unfold register_all.
  assert (H : forall fs,
    foldl (fun fs f => registerStateSpaceFactory f fs) fs l
    = (fs ++ ((fun f => (getType f, f)) <$> l))%list).
  { induction l as [|f l IH]; intros fs; cbn.
    - by rewrite app_nil_r.
    - rewrite IH. unfold registerStateSpaceFactory. rewrite <- app_assoc. reflexivity. }
  apply (H []).
Qed.

Lemma register_all_lookup (l : list ModelBasedStateSpaceFactory) j k g :
  register_all l !! j = Some (k, g) <-> l !! j = Some g /\ k = getType g.
Proof.
  rewrite register_all_entries. rewrite list_lookup_fmap.
  destruct (l !! j) as [g'|]; cbn.
  - split.
    + intros Heq. injection Heq as <- <-. done.
    + intros [Heq ->]. injection Heq as ->. done.
  - split; [discriminate|]. intros [Heq _]. discriminate.
Qed.

(** C7: selection by problem scores every registered factory and returns
    one with the greatest score, provided that score is above zero; the
    comparison being strict, every factory the loop has seen before the
    returned one scores strictly less, so that among factories of equal score
    the first seen wins; and the result is empty exactly when no registered
    factory scores above zero.  This holds for the entries of the registry in
    the order the loop visits them, and so, when the factories of [l] are
    registered in that order, for the order of registration: among factories
    of equal score the earliest registered wins. *)
Theorem getStateSpaceFactory_problem_registered (group : string) (req : MotionPlanRequest) :
  let score f := canRepresentProblem f group req in
  (forall fs : FactoryMap,
     let selected := getStateSpaceFactory_problem fs group req in
     (selected = None <-> forall k g, (k, g) ∈ fs -> (score g <= 0)%Z) /\
     (forall f, selected = Some f ->
        exists i k, fs !! i = Some (k, f) /\ (0 < score f)%Z /\
          (forall j k' g, fs !! j = Some (k', g) -> (score g <= score f)%Z) /\
          (forall j k' g, j < i -> fs !! j = Some (k', g) -> (score g < score f)%Z))) /\
  (forall l : list ModelBasedStateSpaceFactory,
     let selected := getStateSpaceFactory_problem (register_all l) group req in
     (selected = None <-> forall g, g ∈ l -> (score g <= 0)%Z) /\
     (forall f, selected = Some f ->
        exists i, l !! i = Some f /\ (0 < score f)%Z /\
          (forall g, g ∈ l -> (score g <= score f)%Z) /\
          (forall j g, j < i -> l !! j = Some g -> (score g < score f)%Z))).
Proof.
  intros score. split.
  { intros fs. apply getStateSpaceFactory_problem_first_seen. }
  intros l selected. unfold selected, getStateSpaceFactory_problem.
  destruct (best_factory_spec group req (register_all l) None 0)
    as [[Heq Hall]|(i & k & f & Heq & Hi & Hp & Hmax & Hfirst)].
  - split.
    + split; [|intros _; exact Heq].
      intros _ g [j Hj]%list_elem_of_lookup_1.
      apply (Hall (getType g) g). apply (list_elem_of_lookup_2 _ j).
      by apply register_all_lookup.
    + intros f Hf. rewrite Heq in Hf. discriminate.
  - apply register_all_lookup in Hi as [Hi ->].
    split.
    + split.
      * intros Hnone. rewrite Heq in Hnone. discriminate.
      * intros Hall. pose proof (Hall f (list_elem_of_lookup_2 _ _ _ Hi)).
        unfold score in *. lia.
    + intros f' Hf'. rewrite Heq in Hf'. injection Hf' as <-.
      exists i. split_and!; [done|done| |].
      * intros g [j Hj]%list_elem_of_lookup_1.
        apply (Hmax j (getType g) g). by apply register_all_lookup.
      * intros j g Hlt Hj.
        apply (Hfirst j (getType g) g Hlt). by apply register_all_lookup.
Qed.

Definition empty_request : MotionPlanRequest :=
  {| group_name := "arm"; planner_id := ""; start_state := 0;
     workspace_parameters := 0;
     path_constraints := {| position_constraints := []; orientation_constraints := [] |};
     goal_constraints := [] |}.

Definition factory (type : string) (priority : Z) : ModelBasedStateSpaceFactory :=
  {| getType := type; canRepresentProblem := fun _ _ => priority |}.

(** Three factories registered with the priorities 5, 10 and 3. *)
Example greatest_priority_wins :
  getStateSpaceFactory_problem
    (register_all [factory "A" 5; factory "B" 10; factory "C" 3])
    "arm" empty_request = Some (factory "B" 10).
Proof. reflexivity. Qed.

(** Two factories of equal priority: the one registered first is returned. *)
Example earlier_registered_wins_tie :
  getStateSpaceFactory_problem
    (register_all [factory "PoseModel" 5; factory "JointModel" 5])
    "arm" empty_request = Some (factory "PoseModel" 5).
Proof. reflexivity. Qed.

(** ** The three tiers of the state space selection *)

Section Selection.

Variable lexical_cast_bool : string -> option bool.
Variable CONSTRAINED_TYPE : string.
Variable JOINT_TYPE : string.

Local Abbreviation config_flag := (config_flag lexical_cast_bool).
Local Abbreviation select_factory :=
  (select_factory lexical_cast_bool CONSTRAINED_TYPE JOINT_TYPE).

(** The request carries exactly one position constraint or exactly one
    orientation constraint. *)
Definition one_constraint (req : MotionPlanRequest) : Prop :=
  length (position_constraints (path_constraints req)) = 1 \/
  length (orientation_constraints (path_constraints req)) = 1.

Definition without_flag (key : string) (pc : PlannerConfigurationSettings)
  : PlannerConfigurationSettings :=
  {| group := group pc; name := name pc; config := delete key (config pc) |}.

Lemma one_constraint_bool req :
  one_constraint req <->
  Nat.eqb (length (position_constraints (path_constraints req))) 1
  || Nat.eqb (length (orientation_constraints (path_constraints req))) 1 = true.
Proof.
  unfold one_constraint. rewrite orb_true_iff, !Nat.eqb_eq. reflexivity.
Qed.

Lemma config_flag_delete_ne cfg key key' :
  key <> key' -> config_flag (delete key cfg) key' = config_flag cfg key'.
Proof.
  intros Hne. unfold Manager.config_flag. by rewrite lookup_delete_ne.
Qed.

(** What the configuration holds under a flag, as
    [it != config.end() && boost::lexical_cast<bool>(it->second)] reads it:
    the flag is set to true when its value is there and reads true; it is
    off when the key is absent or its value reads false; and it cannot be
    read when the value is there and the cast rejects it. *)
Definition reads_true (cfg : gmap string string) (key : string) : Prop :=
  exists v, cfg !! key = Some v /\ lexical_cast_bool v = Some true.

Definition reads_off (cfg : gmap string string) (key : string) : Prop :=
  cfg !! key = None \/ exists v, cfg !! key = Some v /\ lexical_cast_bool v = Some false.

Definition cannot_be_read (cfg : gmap string string) (key : string) : Prop :=
  exists v, cfg !! key = Some v /\ lexical_cast_bool v = None.

(** The factory [f] is the one the registry holds under the type name [t]:
    its entry is the first one with that name. *)
Definition held_under (fs : FactoryMap) (t : string) (f : ModelBasedStateSpaceFactory)
  : Prop :=
  exists pre post, fs = (pre ++ (t, f) :: post)%list /\ forall k g, (k, g) ∈ pre -> k <> t.

Definition nothing_under (fs : FactoryMap) (t : string) : Prop :=
  forall k g, (k, g) ∈ fs -> k <> t.

Lemma config_flag_true cfg key : reads_true cfg key -> config_flag cfg key = Ok true.
Proof.
  intros (v & Hv & Hcast). unfold Manager.config_flag, lexical_cast. by rewrite Hv, Hcast.
Qed.

Lemma config_flag_off cfg key : reads_off cfg key -> config_flag cfg key = Ok false.
Proof.
  intros [Hv|(v & Hv & Hcast)]; unfold Manager.config_flag, lexical_cast; rewrite Hv;
    [done|by rewrite Hcast].
Qed.

Lemma config_flag_cannot_be_read cfg key :
  cannot_be_read cfg key -> config_flag cfg key = Throw bad_lexical_cast.
Proof.
  intros (v & Hv & Hcast). unfold Manager.config_flag, lexical_cast. by rewrite Hv, Hcast.
Qed.

Lemma getStateSpaceFactory_type_held fs t f :
  t <> "" -> held_under fs t f -> getStateSpaceFactory_type fs t = Some f.
Proof.
  intros Ht (pre & post & -> & Hpre). unfold getStateSpaceFactory_type.
  destruct (decide (t = "")); [done|].
  assert (H : map_find t (pre ++ (t, f) :: post) = Some (t, f)).
  { induction pre as [|[k g] pre IH]; cbn.
    - by rewrite String.eqb_refl.
    - destruct (String.eqb_spec t k) as [->|_].
      + exfalso. by apply (Hpre k g); [apply list_elem_of_here|].
      + apply IH. intros k' g' Hin. apply (Hpre k' g'). by apply list_elem_of_further. }
  by rewrite H.
Qed.

Lemma getStateSpaceFactory_type_nothing fs t :
  t <> "" -> nothing_under fs t -> getStateSpaceFactory_type fs t = None.
Proof.
  intros Ht Hno. unfold getStateSpaceFactory_type.
  destruct (decide (t = "")); [done|].
  assert (H : map_find t fs = None).
  { induction fs as [|[k g] fs IH]; cbn; [done|].
    destruct (String.eqb_spec t k) as [->|_].
    - exfalso. by apply (Hno k g); [apply list_elem_of_here|].
    - apply IH. intros k' g' Hin. apply (Hno k' g'). by apply list_elem_of_further. }
  by rewrite H.
Qed.

(** C1 (amended): the state space selection has three tiers, tried in
    order, for a configuration whose flags can be read.  With the constrained
    flag set to true and exactly one position or orientation constraint, the
    factory the registry holds under the constrained type is returned;
    otherwise, with the joint flag set to true, the factory held under the
    joint model type; otherwise the factory of the greatest priority above
    zero, the first one the registry lists among equals.  With the
    constrained flag set to true and no path constraint the selection is that
    of the configuration without the flag.  When the value of the constrained
    flag cannot be read, or the first tier does not apply and the value of
    the joint flag cannot be read, the selection throws [bad_lexical_cast]. *)
Theorem select_factory_three_tiers (m : PlanningContextManager)
    (pc : PlannerConfigurationSettings) (req : MotionPlanRequest) :
  CONSTRAINED_TYPE <> "" ->
  JOINT_TYPE <> "" ->
  let cfg := config pc in
  let fs := state_space_factories_ m in
  let score f := canRepresentProblem f (group pc) req in
  let tier1_off :=
    reads_off cfg "enforce_constrained_state_space" \/
    (reads_true cfg "enforce_constrained_state_space" /\ ~ one_constraint req) in
  let chosen t :=
    (forall f, held_under fs t f -> select_factory m pc req = Ok (Some f)) /\
    (nothing_under fs t -> select_factory m pc req = Ok None) in
  (reads_true cfg "enforce_constrained_state_space" -> one_constraint req ->
     chosen CONSTRAINED_TYPE) /\
  (tier1_off -> reads_true cfg "enforce_joint_model_state_space" ->
     chosen JOINT_TYPE) /\
  (tier1_off -> reads_off cfg "enforce_joint_model_state_space" ->
     exists r, select_factory m pc req = Ok r /\
       (r = None <-> forall k g, (k, g) ∈ fs -> (score g <= 0)%Z) /\
       (forall f, r = Some f ->
          exists i k, fs !! i = Some (k, f) /\ (0 < score f)%Z /\
            (forall j k' g, fs !! j = Some (k', g) -> (score g <= score f)%Z) /\
            (forall j k' g, j < i -> fs !! j = Some (k', g) -> (score g < score f)%Z))) /\
  (reads_true cfg "enforce_constrained_state_space" ->
     position_constraints (path_constraints req) = [] ->
     orientation_constraints (path_constraints req) = [] ->
     select_factory m pc req =
     select_factory m (without_flag "enforce_constrained_state_space" pc) req) /\
  (cannot_be_read cfg "enforce_constrained_state_space" ->
     select_factory m pc req = Throw bad_lexical_cast) /\
  (tier1_off -> cannot_be_read cfg "enforce_joint_model_state_space" ->
     select_factory m pc req = Throw bad_lexical_cast).
Proof.
  intros HC HJ cfg fs score tier1_off chosen.
  assert (Hoff : tier1_off -> forall X Y : Result (option ModelBasedStateSpaceFactory),
    (config_flag cfg "enforce_constrained_state_space" ≫= λ c : bool,
       if c && (Nat.eqb (length (position_constraints (path_constraints req))) 1
                || Nat.eqb (length (orientation_constraints (path_constraints req))) 1)
       then X else Y) = Y).
  { intros [Hc|[Hc Hn]] X Y.
    - rewrite (config_flag_off _ _ Hc). done.
    - rewrite (config_flag_true _ _ Hc). cbn.
      rewrite one_constraint_bool in Hn. by destruct (_ || _). }
  split_and!.
  - intros Hc Hone.
    assert (Hsel : select_factory m pc req =
                   Ok (getStateSpaceFactory_type fs CONSTRAINED_TYPE)).
    { unfold Manager.select_factory. fold cfg. rewrite (config_flag_true _ _ Hc). cbn.
      apply one_constraint_bool in Hone. by rewrite Hone. }
    split.
    + intros f Hf. by rewrite Hsel, (getStateSpaceFactory_type_held _ _ _ HC Hf).
    + intros Hno. by rewrite Hsel, (getStateSpaceFactory_type_nothing _ _ HC Hno).
  - intros Ht Hj.
    assert (Hsel : select_factory m pc req =
                   Ok (getStateSpaceFactory_type fs JOINT_TYPE)).
    { unfold Manager.select_factory. fold cfg.
      rewrite (Hoff Ht), (config_flag_true _ _ Hj). reflexivity. }
    split.
    + intros f Hf. by rewrite Hsel, (getStateSpaceFactory_type_held _ _ _ HJ Hf).
    + intros Hno. by rewrite Hsel, (getStateSpaceFactory_type_nothing _ _ HJ Hno).
  - intros Ht Hj.
    exists (getStateSpaceFactory_problem fs (group pc) req). split.
    { unfold Manager.select_factory. fold cfg.
      rewrite (Hoff Ht), (config_flag_off _ _ Hj). reflexivity. }
    apply getStateSpaceFactory_problem_first_seen.
  - intros Hc Hp Ho. unfold Manager.select_factory. fold cfg.
    rewrite (config_flag_true _ _ Hc). cbn [config without_flag group].
    rewrite Hp, Ho. cbn.
    rewrite config_flag_delete_ne by done.
    unfold Manager.config_flag. rewrite lookup_delete_eq. cbn. reflexivity.
  - intros Hc. unfold Manager.select_factory. fold cfg.
    by rewrite (config_flag_cannot_be_read _ _ Hc).
  - intros Ht Hj. unfold Manager.select_factory. fold cfg.
    rewrite (Hoff Ht), (config_flag_cannot_be_read _ _ Hj). reflexivity.
Qed.

End Selection.

(** ** The context cache *)

(** Every cached pointer names an object, and an address without an
    object has no holder. *)
Definition wf (s : State) : Prop :=
  (forall key l a, contexts_ s !! key = Some l -> a ∈ l -> is_Some (objects s !! a)) /\
  (forall a, objects s !! a = None -> holders_of s a = 0).

Lemma wf_initial : wf initial.
Proof.
  split.
  - intros key l a H. unfold initial in H. cbn in H. by rewrite lookup_empty in H.
  - intros a _. unfold holders_of, initial. cbn. by rewrite lookup_empty.
Qed.

Lemma new_addr_fresh (s : State) : objects s !! new_addr s = None.
Proof. apply not_elem_of_dom. unfold new_addr. apply is_fresh. Qed.

Lemma cache_entry_alive s key a :
  wf s -> a ∈ cache_entry s key -> is_Some (objects s !! a).
Proof.
  intros [Hwf _] Ha. unfold cache_entry in Ha.
  destruct (contexts_ s !! key) as [l|] eqn:Hl; cbn in Ha.
  - by eapply Hwf.
  - by apply elem_of_nil in Ha.
Qed.

Lemma new_addr_not_cached s key :
  wf s -> new_addr s ∉ cache_entry s key.
Proof.
  intros Hwf Hin. apply (cache_entry_alive _ _ _ Hwf) in Hin.
  rewrite new_addr_fresh in Hin. by destruct Hin.
Qed.

Lemma find_first {A} (f : A -> bool) pre b post :
  Forall (fun c => f c = false) pre -> f b = true ->
  List.find f (pre ++ b :: post) = Some b.
Proof.
  intros Hpre Hb. induction Hpre as [|c pre Hc _ IH]; cbn.
  - by rewrite Hb.
  - by rewrite Hc.
Qed.

Lemma find_none_all {A} (f : A -> bool) l :
  (forall c, c ∈ l -> f c = false) -> List.find f l = None.
Proof.
  induction l as [|c l IH]; intros H; cbn; [done|].
  rewrite (H c) by apply list_elem_of_here.
  apply IH. intros c' Hc'. apply H. by apply list_elem_of_further.
Qed.

Lemma find_same {A} (f g : A -> bool) l :
  (forall c, f c = g c) -> List.find f l = List.find g l.
Proof.
  intros H. induction l as [|c l IH]; cbn; [done|]. by rewrite H, IH.
Qed.

Lemma holders_of_release_hold s0 s1 a x :
  holders s1 = holders (hold a s0) ->
  holders_of (release a s1) x = holders_of s0 x.
Proof.
  intros H. unfold holders_of, release. cbn. unfold holders_of. rewrite H. cbn.
  destruct (decide (a = x)) as [->|Hne].
  - rewrite !lookup_insert_eq. reflexivity.
  - by rewrite !lookup_insert_ne.
Qed.

Section Cache.

Context {methods : ContextMethods}.
Variable CONSTRAINED_TYPE : string.

Local Abbreviation acquire := (getPlanningContext_factory CONSTRAINED_TYPE).

(** The cached context a lookup under [key] settles on. *)
Definition cached_lookup (s : State) (key : string * string) : option nat :=
  match contexts_ s !! key with
  | Some cached_contexts => List.find (unique s) cached_contexts
  | None => None
  end.

(** The context that is built on a miss. *)
Definition new_context (pc : PlannerConfigurationSettings)
    (f : ModelBasedStateSpaceFactory) (req : MotionPlanRequest)
  : ModelBasedPlanningContext :=
  construct (name pc)
    {| config_ := config pc;
       state_space_ := getNewStateSpace f (group pc);
       constrained_state_space_ :=
         if decide (getType f = CONSTRAINED_TYPE)
         then Some (path_constraints req) else None |}.

Lemma acquire_hit m pc f req s a :
  cached_lookup s (name pc, getType f) = Some a ->
  acquire m pc (Some f) req s =
  Ok (Some a, update a (apply_limits m pc) (hold a s)).
Proof.
  unfold cached_lookup, getPlanningContext_factory. intros H.
  destruct (contexts_ s !! (name pc, getType f)) as [l|]; [|discriminate].
  by rewrite H.
Qed.

Lemma acquire_miss m pc f req s :
  cached_lookup s (name pc, getType f) = None ->
  acquire m pc (Some f) req s =
  Ok (Some (new_addr s),
      update (new_addr s) (apply_limits m pc)
        (let s1 := hold (new_addr s) (snd (make_shared (new_context pc f req) s)) in
         if decide (getType f <> CONSTRAINED_TYPE)
         then push_back (name pc, getType f) (new_addr s) s1 else s1)).
Proof.
  unfold cached_lookup, getPlanningContext_factory. intros H.
  destruct (contexts_ s !! (name pc, getType f)) as [l|]; rewrite ?H; reflexivity.
Qed.

Lemma cached_lookup_Some s key a :
  cached_lookup s key = Some a ->
  a ∈ cache_entry s key /\ unique s a = true.
Proof.
  unfold cached_lookup, cache_entry.
  destruct (contexts_ s !! key) as [l|]; [|discriminate].
  intros [Hin Hu]%find_some. split; [by apply list_elem_of_In|done].
Qed.

Lemma cached_lookup_None s key :
  cached_lookup s key = None <->
  forall b, b ∈ cache_entry s key -> unique s b = false.
Proof.
  unfold cached_lookup, cache_entry.
  destruct (contexts_ s !! key) as [l|]; cbn.
  - split.
    + intros H b Hb. eapply find_none; [exact H|by apply list_elem_of_In].
    + apply find_none_all.
  - split; [|done]. intros _ b Hb. by apply elem_of_nil in Hb.
Qed.

(** What an acquisition does to the state: on a hit and on a miss. *)
Lemma acquire_cases m pc f req s :
  wf s ->
  let key := (name pc, getType f) in
  exists a s',
    acquire m pc (Some f) req s = Ok (Some a, s') /\
    holders s' = holders (hold a s) /\
    ((cached_lookup s key = Some a /\
      is_Some (objects s !! a) /\
      objects s' = alter (apply_limits m pc) a (objects s) /\
      contexts_ s' = contexts_ s)
     \/
     (cached_lookup s key = None /\
      a = new_addr s /\
      objects s' = <[a := apply_limits m pc (new_context pc f req)]> (objects s) /\
      contexts_ s' =
        if decide (getType f <> CONSTRAINED_TYPE)
        then <[key := (cache_entry s key ++ [a])%list]> (contexts_ s)
        else contexts_ s)).
Proof.
  intros Hwf key.
  destruct (cached_lookup s key) as [a|] eqn:H.
  - exists a, (update a (apply_limits m pc) (hold a s)).
    split; [by apply acquire_hit|]. split; [reflexivity|]. left.
    split_and!; try done.
    apply cached_lookup_Some in H as [Hin _]. by eapply cache_entry_alive.
  - eexists _, _. rewrite (acquire_miss _ _ _ _ _ H).
    split; [reflexivity|]. cbn zeta.
    destruct (decide (getType f <> CONSTRAINED_TYPE)); cbn.
    + split; [reflexivity|]. right. split_and!; try done.
      by rewrite alter_insert_eq.
    + split; [reflexivity|]. right. split_and!; try done.
      by rewrite alter_insert_eq.
Qed.

(** An acquisition that finds every cached context of its entry held builds
    a new one, and appends it unless the factory is of the constrained
    type. *)
Lemma acquire_all_held m pc f req s :
  wf s ->
  let key := (name pc, getType f) in
  (forall b, b ∈ cache_entry s key -> unique s b = false) ->
  exists a s',
    acquire m pc (Some f) req s = Ok (Some a, s') /\
    objects s !! a = None /\
    (forall key' b, b ∈ cache_entry s key' -> b <> a) /\
    is_Some (objects s' !! a) /\
    contexts_ s' =
      if decide (getType f <> CONSTRAINED_TYPE)
      then <[key := (cache_entry s key ++ [a])%list]> (contexts_ s)
      else contexts_ s.
Proof.
  intros Hwf key Hheld. apply cached_lookup_None in Hheld.
  destruct (acquire_cases m pc f req s Hwf) as (a & s' & Heq & _ & Hcase).
  exists a, s'. split; [exact Heq|].
  destruct Hcase as [(Hlook & _)|(_ & -> & Ho & Hc)]; [unfold key in Hheld; congruence|].
  split_and!.
  - apply new_addr_fresh.
  - intros key' b Hb ->. by eapply new_addr_not_cached.
  - rewrite Ho, lookup_insert_eq. eauto.
  - exact Hc.
Qed.

(** An acquisition with a factory returns the address of an object. *)
Lemma acquire_returns_object m pc f req s :
  wf s ->
  exists a s' c,
    acquire m pc (Some f) req s = Ok (Some a, s') /\ objects s' !! a = Some c.
Proof.
  intros Hwf.
  destruct (acquire_cases m pc f req s Hwf)
    as (a & s' & Hacq & _ & [(_ & [c Hc] & Hobj & _)|(_ & _ & Hobj & _)]).
  - exists a, s', (apply_limits m pc c). split; [done|].
    rewrite Hobj, lookup_alter_eq, Hc. reflexivity.
  - eexists a, s', _. split; [done|]. rewrite Hobj. apply lookup_insert_eq.
Qed.

Lemma acquire_wf m pc f req s a s' :
  wf s -> acquire m pc (Some f) req s = Ok (Some a, s') -> wf s'.
Proof.
  intros Hwf Hacq.
  destruct (acquire_cases m pc f req s Hwf) as (a' & s1 & Heq & Hh & Hcase).
  rewrite Heq in Hacq. injection Hacq as <- <-.
  assert (Halive : forall x, is_Some (objects s !! x) -> is_Some (objects s1 !! x)).
  { intros x Hx.
    destruct Hcase as [(_ & _ & Ho & _)|(_ & _ & Ho & _)]; rewrite Ho.
    - by apply lookup_alter_is_Some.
    - destruct (decide (a' = x)) as [->|Hne];
        [rewrite lookup_insert_eq|rewrite lookup_insert_ne]; eauto. }
  assert (Ha : is_Some (objects s1 !! a')).
  { destruct Hcase as [(_ & Hs & Ho & _)|(_ & _ & Ho & _)].
    - by apply Halive.
    - rewrite Ho, lookup_insert_eq. eauto. }
  split.
  - intros key l x Hl Hx.
    destruct Hcase as [(_ & _ & _ & Hc)|(_ & -> & _ & Hc)].
    + rewrite Hc in Hl. apply Halive. by eapply (proj1 Hwf).
    + destruct (decide (getType f <> CONSTRAINED_TYPE)); rewrite Hc in Hl.
      * destruct (decide ((name pc, getType f) = key)) as [<-|Hne].
        -- rewrite lookup_insert_eq in Hl. injection Hl as <-.
           apply elem_of_app in Hx as [Hx|Hx].
           ++ apply Halive. by eapply cache_entry_alive.
           ++ apply list_elem_of_singleton in Hx as ->. done.
        -- rewrite lookup_insert_ne in Hl by done.
           apply Halive. by eapply (proj1 Hwf).
      * apply Halive. by eapply (proj1 Hwf).
  - intros x Hx. unfold holders_of. rewrite Hh. cbn.
    destruct (decide (a' = x)) as [->|Hne].
    + rewrite Hx in Ha. by destruct Ha.
    + rewrite lookup_insert_ne by done. apply (proj2 Hwf).
      destruct (objects s !! x) eqn:Hsx; [|done].
      assert (is_Some (objects s1 !! x)) as [? Hc] by (apply Halive; eauto).
      congruence.
Qed.

Lemma release_wf a s : wf s -> wf (release a s).
Proof.
  intros [H1 H2]. split; [exact H1|].
  intros x Hx. unfold holders_of, release. cbn.
  destruct (decide (a = x)) as [->|Hne].
  - rewrite lookup_insert_eq. cbn. by rewrite (H2 x Hx).
  - rewrite lookup_insert_ne by done. by apply H2.
Qed.

Lemma store_wf a c s : is_Some (objects s !! a) -> wf s -> wf (store a c s).
Proof.
  intros Ha [H1 H2]. split.
  - intros key l x Hl Hx. cbn.
    destruct (decide (a = x)) as [->|Hne];
      [rewrite lookup_insert_eq|rewrite lookup_insert_ne]; eauto.
  - intros x Hx. cbn in Hx. unfold holders_of. cbn.
    destruct (decide (a = x)) as [->|Hne].
    + by rewrite lookup_insert_eq in Hx.
    + rewrite lookup_insert_ne in Hx by done. by apply H2.
Qed.

(** After the caller has given the context back, the exclusivity check
    reads as it did before the acquisition. *)
Lemma unique_after_release m pc f req s a s' x :
  wf s -> acquire m pc (Some f) req s = Ok (Some a, s') ->
  unique (release a s') x = unique s x.
Proof.
  intros Hwf Hacq.
  destruct (acquire_cases m pc f req s Hwf) as (a' & s1 & Heq & Hh & _).
  rewrite Heq in Hacq. injection Hacq as <- <-.
  unfold unique. by rewrite (holders_of_release_hold s s1 a' x Hh).
Qed.

(** C2 (amended): an acquisition under the key (configuration name,
    factory type) returns the first cached context of the entry that no one
    else holds, and leaves the cache as it is; when every cached context of
    the entry is held, it builds a context that is distinct from every
    existing one and appends it to the entry unless the factory is of the
    constrained type, in which case the cache stays as it is.  For a factory
    that is not of the constrained type, an acquisition that follows the
    release of the context returns the same context again. *)
Theorem acquisition_cache_policy (m : PlanningContextManager)
    (pc : PlannerConfigurationSettings) (f : ModelBasedStateSpaceFactory)
    (req : MotionPlanRequest) (s : State) :
  wf s ->
  let key := (name pc, getType f) in
  exists a s',
    acquire m pc (Some f) req s = Ok (Some a, s') /\
    (forall pre b post,
       contexts_ s !! key = Some (pre ++ b :: post)%list ->
       Forall (fun c => unique s c = false) pre -> unique s b = true ->
       a = b /\ contexts_ s' = contexts_ s) /\
    ((forall b, b ∈ cache_entry s key -> unique s b = false) ->
       objects s !! a = None /\
       (forall key' b, b ∈ cache_entry s key' -> b <> a) /\
       is_Some (objects s' !! a) /\
       (getType f <> CONSTRAINED_TYPE ->
          contexts_ s' = <[key := (cache_entry s key ++ [a])%list]> (contexts_ s)) /\
       (getType f = CONSTRAINED_TYPE -> contexts_ s' = contexts_ s)) /\
    (getType f <> CONSTRAINED_TYPE ->
       forall m' req', exists s'',
         acquire m' pc (Some f) req' (release a s') = Ok (Some a, s'')).
Proof.
  intros Hwf key. subst key.
  destruct (acquire_cases m pc f req s Hwf) as (a & s' & Heq & Hh & Hcase).
  exists a, s'. split; [exact Heq|].
  assert (Huniq : forall x, unique (release a s') x = unique s x)
    by (intros x; by eapply unique_after_release).
  split_and!.
  - intros pre b post Hl Hpre Hb.
    assert (Hfind : cached_lookup s (name pc, getType f) = Some b).
    { unfold cached_lookup. rewrite Hl. by apply find_first. }
    destruct Hcase as [(Hlook & _ & _ & Hc)|(Hlook & _)].
    + split; [congruence|done].
    + congruence.
  - intros Hheld. apply cached_lookup_None in Hheld.
    destruct Hcase as [(Hlook & _)|(_ & -> & Ho & Hc)]; [congruence|].
    split_and!.
    + apply new_addr_fresh.
    + intros key' b Hb ->. by eapply new_addr_not_cached.
    + rewrite Ho, lookup_insert_eq. eauto.
    + intros Hne. by destruct (decide (getType f <> CONSTRAINED_TYPE)).
    + intros He. by destruct (decide (getType f <> CONSTRAINED_TYPE)).
  - intros Hne m' req'.
    assert (Hfind : cached_lookup (release a s') (name pc, getType f) = Some a).
    { unfold cached_lookup. cbn [release contexts_].
      destruct Hcase as [(Hlook & _ & _ & Hc)|(Hlook & -> & _ & Hc)].
      - rewrite Hc. unfold cached_lookup in Hlook.
        destruct (contexts_ s !! (name pc, getType f)) as [l|]; [|discriminate].
        rewrite <- Hlook. by apply find_same.
      - destruct (decide (getType f <> CONSTRAINED_TYPE)); [|done].
        rewrite Hc. rewrite lookup_insert_eq.
        apply find_first.
        + apply Forall_forall. intros b Hb. rewrite Huniq.
          by apply (proj1 (cached_lookup_None s (name pc, getType f))).
        + rewrite Huniq. unfold unique.
          rewrite (proj2 Hwf _ (new_addr_fresh s)). reflexivity. }
    eexists. by apply acquire_hit.
Qed.

(** C8 (amended): after every acquisition, on a hit and on a miss, the
    returned context carries the planning threads, goal samples, state and
    goal sampling attempts and minimum waypoint count of the manager and the
    parameters of the configuration.  It carries the maximum solution
    segment length of the manager when that is greater than the machine
    epsilon; otherwise a cached context keeps the length it had, and a new
    one the length its constructor gave it. *)
Theorem acquisition_applies_limits (m : PlanningContextManager)
    (pc : PlannerConfigurationSettings) (f : ModelBasedStateSpaceFactory)
    (req : MotionPlanRequest) (s : State) :
  wf s ->
  exists a s' c,
    acquire m pc (Some f) req s = Ok (Some a, s') /\
    objects s' !! a = Some c /\
    max_planning_threads c = max_planning_threads_ m /\
    max_goal_samples c = max_goal_samples_ m /\
    max_state_sampling_attempts c = max_state_sampling_attempts_ m /\
    max_goal_sampling_attempts c = max_goal_sampling_attempts_ m /\
    minimum_waypoint_count c = minimum_waypoint_count_ m /\
    config_ (spec_ c) = config pc /\
    (PrimFloat.ltb epsilon (max_solution_segment_length_ m) = true ->
       max_solution_segment_length c = max_solution_segment_length_ m) /\
    (PrimFloat.ltb epsilon (max_solution_segment_length_ m) = false ->
       match objects s !! a with
       | Some c0 => max_solution_segment_length c = max_solution_segment_length c0
       | None => max_solution_segment_length c =
                 max_solution_segment_length (new_context pc f req)
       end).
Proof.
  intros Hwf.
  destruct (acquire_cases m pc f req s Hwf) as (a & s' & Heq & _ & Hcase).
  assert (Hlim : forall c0,
    let c := apply_limits m pc c0 in
    max_planning_threads c = max_planning_threads_ m /\
    max_goal_samples c = max_goal_samples_ m /\
    max_state_sampling_attempts c = max_state_sampling_attempts_ m /\
    max_goal_sampling_attempts c = max_goal_sampling_attempts_ m /\
    minimum_waypoint_count c = minimum_waypoint_count_ m /\
    config_ (spec_ c) = config pc /\
    (PrimFloat.ltb epsilon (max_solution_segment_length_ m) = true ->
       max_solution_segment_length c = max_solution_segment_length_ m) /\
    (PrimFloat.ltb epsilon (max_solution_segment_length_ m) = false ->
       max_solution_segment_length c = max_solution_segment_length c0)).
  { intros c0. unfold apply_limits.
    destruct (PrimFloat.ltb epsilon (max_solution_segment_length_ m));
      cbn; split_and!; done. }
  destruct Hcase as [(_ & [c0 Hc0] & Ho & _)|(_ & -> & Ho & _)].
  - exists a, s', (apply_limits m pc c0). split; [exact Heq|].
    split; [by rewrite Ho, lookup_alter_eq, Hc0|].
    rewrite Hc0. apply Hlim.
  - exists (new_addr s), s', (apply_limits m pc (new_context pc f req)).
    split; [exact Heq|]. split; [by rewrite Ho, lookup_insert_eq|].
    rewrite new_addr_fresh. apply Hlim.
Qed.

End Cache.

(** ** Handling of a request *)

Lemma store_lookup a c s : objects (store a c s) !! a = Some c.
Proof. apply lookup_insert_eq. Qed.

Lemma store_store a c c' s : store a c' (store a c s) = store a c' s.
Proof. unfold store. cbn. by rewrite insert_insert_eq. Qed.

Lemma call_ok {A} a (f : ModelBasedPlanningContext -> A * ModelBasedPlanningContext) s c :
  objects s !! a = Some c ->
  call a f s = Ok (fst (f c), store a (snd (f c)) s).
Proof. intros H. unfold call. rewrite H. by destruct (f c). Qed.

Lemma call_null {A} a (f : ModelBasedPlanningContext -> A * ModelBasedPlanningContext) s :
  objects s !! a = None -> call a f s = Throw null_dereference.
Proof. intros H. unfold call. by rewrite H. Qed.

Section Requests.

Variable lexical_cast_bool : string -> option bool.
Context {methods : ContextMethods}.
Variable CONSTRAINED_TYPE : string.
Variable JOINT_TYPE : string.

Local Abbreviation acquire := (getPlanningContext_factory CONSTRAINED_TYPE).
Local Abbreviation select_factory :=
  (select_factory lexical_cast_bool CONSTRAINED_TYPE JOINT_TYPE).
Local Abbreviation getPlanningContext :=
  (getPlanningContext lexical_cast_bool CONSTRAINED_TYPE JOINT_TYPE).

(** The context after the calls that come before the constraints are set. *)
Definition prepared (scene : PlanningScene) (req : MotionPlanRequest)
    (c : ModelBasedPlanningContext) : ModelBasedPlanningContext :=
  setPlanningVolume (workspace_parameters req)
    (setCompleteInitialState (getCurrentStateUpdated scene (start_state req))
       (setMotionPlanRequest req (setPlanningScene scene (clear c)))).

(** The rest of the request once the context [c] at [a] is acquired. *)
Definition finish (scene : PlanningScene) (req : MotionPlanRequest)
    (use_constraints_approximation : bool) (a : nat) (s1 : State)
    (c : ModelBasedPlanningContext)
  : Result (option nat * MoveItErrorCodes * State) :=
  let '(ok1, code1, c2) :=
    setPathConstraints (path_constraints req) FAILURE (prepared scene req c) in
  if negb ok1 then Ok (None, code1, release a (store a c2 s1))
  else
    let '(ok2, code2, c3) :=
      setGoalConstraints (goal_constraints req) (path_constraints req) code1 c2 in
    if negb ok2 then Ok (None, code2, release a (store a c3 s1))
    else
      match configure use_constraints_approximation c3 with
      | Ok c4 => Ok (Some a, SUCCESS, store a c4 s1)
      | Throw ompl_Exception => Ok (None, code2, release a (store a c3 s1))
      | Throw e => Throw e
      end.

Lemma getPlanningContext_acquired m scene req uca s pc fac a s1 c :
  group_name req <> "" ->
  find_config m req = Some pc ->
  select_factory m pc req = Ok fac ->
  acquire m pc fac req s = Ok (Some a, s1) ->
  objects s1 !! a = Some c ->
  getPlanningContext m (Some scene) req uca s = finish scene req uca a s1 c.
Proof.
  intros Hg Hpc Hsel Hacq Hc. unfold Manager.getPlanningContext, finish, prepared.
  destruct (decide (group_name req = "")); [done|].
  rewrite Hpc, Hsel. cbn [mbind Result_bind]. rewrite Hacq. cbn [mbind Result_bind].
  rewrite (call_ok _ _ _ _ Hc). cbn [mbind Result_bind fst snd].
  do 4 (rewrite (call_ok _ _ _ _ (store_lookup _ _ _)); cbn [mbind Result_bind fst snd];
        rewrite store_store).
  rewrite (call_ok _ _ _ _ (store_lookup _ _ _)). cbn [mbind Result_bind fst snd].
  rewrite store_store.
  destruct (setPathConstraints _ _ _) as [[ok1 code1] c2]. cbn [fst snd].
  destruct ok1; cbn [negb]; [|reflexivity].
  rewrite (call_ok _ _ _ _ (store_lookup _ _ _)). cbn [mbind Result_bind fst snd].
  rewrite store_store.
  destruct (setGoalConstraints _ _ _ _) as [[ok2 code2] c3]. cbn [fst snd].
  destruct ok2; cbn [negb]; [|reflexivity].
  rewrite store_lookup.
  destruct (configure uca c3) as [c4|[]]; by rewrite ?store_store.
Qed.

Lemma getPlanningContext_dangling m scene req uca s pc fac a s1 :
  group_name req <> "" ->
  find_config m req = Some pc ->
  select_factory m pc req = Ok fac ->
  acquire m pc fac req s = Ok (Some a, s1) ->
  objects s1 !! a = None ->
  getPlanningContext m (Some scene) req uca s = Throw null_dereference.
Proof.
  intros Hg Hpc Hsel Hacq Hc. unfold Manager.getPlanningContext.
  destruct (decide (group_name req = "")); [done|].
  rewrite Hpc, Hsel. cbn [mbind Result_bind]. rewrite Hacq. cbn [mbind Result_bind].
  by rewrite (call_null _ _ _ Hc).
Qed.

Lemma select_factory_throws m pc req e :
  select_factory m pc req = Throw e -> e = bad_lexical_cast.
Proof.
  unfold Manager.select_factory, config_flag, lexical_cast.
  destruct (config pc !! "enforce_constrained_state_space") as [v|]; cbn.
  - destruct (lexical_cast_bool v) as [c|]; cbn; [|congruence].
    destruct (c && _); [discriminate|].
    destruct (config pc !! "enforce_joint_model_state_space") as [v'|]; cbn.
    + destruct (lexical_cast_bool v') as [[|]|]; cbn; congruence.
    + discriminate.
  - destruct (config pc !! "enforce_joint_model_state_space") as [v'|]; cbn.
    + destruct (lexical_cast_bool v') as [[|]|]; cbn; congruence.
    + discriminate.
Qed.

Lemma acquire_total m pc f req s :
  exists a s1, acquire m pc (Some f) req s = Ok (Some a, s1).
Proof.
  destruct (cached_lookup s (name pc, getType f)) as [a|] eqn:H.
  - eexists _, _. by apply acquire_hit.
  - eexists _, _. by apply acquire_miss.
Qed.

(** A constraint setter that accepts leaves the error code it was handed as
    it was. *)
Definition setters_keep_code : Prop :=
  (forall constraints code c,
     fst (fst (setPathConstraints constraints code c)) = true ->
     snd (fst (setPathConstraints constraints code c)) = code) /\
  (forall goals constraints code c,
     fst (fst (setGoalConstraints goals constraints code c)) = true ->
     snd (fst (setGoalConstraints goals constraints code c)) = code).

(** C9 (amended): an [ompl::Exception] that [configure] throws is caught:
    the request returns a null context together with the error code the
    constraint setters left, which is the generic failure code when the
    setters, having accepted, left the code as it was.  An empty group name, a
    missing planning scene, a missing configuration and constraints that a
    setter refuses are reported through a null context and the error code.
    The catch encloses [configure] only: when the selection of the state space
    throws on a flag value that cannot be read, [bad_lexical_cast] leaves the
    entry point. *)
Theorem ompl_exception_is_caught (m : PlanningContextManager)
    (planning_scene : option PlanningScene) (req : MotionPlanRequest)
    (use_constraints_approximation : bool) (s : State) :
  (forall scene pc fac a s1 c code1 c2 code2 c3,
     planning_scene = Some scene ->
     group_name req <> "" ->
     find_config m req = Some pc ->
     select_factory m pc req = Ok fac ->
     acquire m pc fac req s = Ok (Some a, s1) ->
     objects s1 !! a = Some c ->
     setPathConstraints (path_constraints req) FAILURE (prepared scene req c)
       = (true, code1, c2) ->
     setGoalConstraints (goal_constraints req) (path_constraints req) code1 c2
       = (true, code2, c3) ->
     configure use_constraints_approximation c3 = Throw ompl_Exception ->
     getPlanningContext m planning_scene req use_constraints_approximation s =
     Ok (None, code2, release a (store a c3 s1)) /\
     (setters_keep_code -> code2 = FAILURE)) /\
  (group_name req = "" ->
     getPlanningContext m planning_scene req use_constraints_approximation s =
     Ok (None, INVALID_GROUP_NAME, s)) /\
  (group_name req <> "" -> planning_scene = None ->
     getPlanningContext m planning_scene req use_constraints_approximation s =
     Ok (None, FAILURE, s)) /\
  (group_name req <> "" -> find_config m req = None ->
     getPlanningContext m planning_scene req use_constraints_approximation s =
     Ok (None, FAILURE, s)) /\
  (forall scene pc fac a s1 c code1 c2,
     planning_scene = Some scene ->
     group_name req <> "" ->
     find_config m req = Some pc ->
     select_factory m pc req = Ok fac ->
     acquire m pc fac req s = Ok (Some a, s1) ->
     objects s1 !! a = Some c ->
     setPathConstraints (path_constraints req) FAILURE (prepared scene req c)
       = (false, code1, c2) ->
     getPlanningContext m planning_scene req use_constraints_approximation s =
     Ok (None, code1, release a (store a c2 s1))) /\
  (forall scene pc fac a s1 c code1 c2 code2 c3,
     planning_scene = Some scene ->
     group_name req <> "" ->
     find_config m req = Some pc ->
     select_factory m pc req = Ok fac ->
     acquire m pc fac req s = Ok (Some a, s1) ->
     objects s1 !! a = Some c ->
     setPathConstraints (path_constraints req) FAILURE (prepared scene req c)
       = (true, code1, c2) ->
     setGoalConstraints (goal_constraints req) (path_constraints req) code1 c2
       = (false, code2, c3) ->
     getPlanningContext m planning_scene req use_constraints_approximation s =
     Ok (None, code2, release a (store a c3 s1))) /\
  (forall scene pc e,
     planning_scene = Some scene ->
     group_name req <> "" ->
     find_config m req = Some pc ->
     select_factory m pc req = Throw e ->
     getPlanningContext m planning_scene req use_constraints_approximation s =
     Throw bad_lexical_cast).
Proof.
  split_and!.
  - intros scene pc fac a s1 c code1 c2 code2 c3 -> Hg Hpc Hsel Hacq Hc H1 H2 H3.
    split.
    + rewrite (getPlanningContext_acquired _ _ _ _ _ _ _ _ _ _ Hg Hpc Hsel Hacq Hc).
      unfold finish. rewrite H1. cbn. rewrite H2. cbn. by rewrite H3.
    + intros [Hpath Hgoal].
      pose proof (Hpath (path_constraints req) FAILURE (prepared scene req c)) as Hp.
      rewrite H1 in Hp. cbn in Hp.
      pose proof (Hgoal (goal_constraints req) (path_constraints req) code1 c2) as Hq.
      rewrite H2 in Hq. cbn in Hq.
      rewrite (Hq eq_refl). exact (Hp eq_refl).
  - intros Hg. unfold Manager.getPlanningContext.
    by destruct (decide (group_name req = "")).
  - intros Hg ->. unfold Manager.getPlanningContext.
    by destruct (decide (group_name req = "")).
  - intros Hg Hpc. unfold Manager.getPlanningContext.
    destruct (decide (group_name req = "")); [done|].
    destruct planning_scene; [|done]. by rewrite Hpc.
  - intros scene pc fac a s1 c code1 c2 -> Hg Hpc Hsel Hacq Hc H1.
    rewrite (getPlanningContext_acquired _ _ _ _ _ _ _ _ _ _ Hg Hpc Hsel Hacq Hc).
    unfold finish. by rewrite H1.
  - intros scene pc fac a s1 c code1 c2 code2 c3 -> Hg Hpc Hsel Hacq Hc H1 H2.
    rewrite (getPlanningContext_acquired _ _ _ _ _ _ _ _ _ _ Hg Hpc Hsel Hacq Hc).
    unfold finish. rewrite H1. cbn. by rewrite H2.
  - intros scene pc e -> Hg Hpc Hsel. unfold Manager.getPlanningContext.
    destruct (decide (group_name req = "")); [done|].
    rewrite Hpc, Hsel. cbn. by rewrite (select_factory_throws _ _ _ _ Hsel).
Qed.

(** C10: when a context was newly built for a factory that is not of the
    constrained type, and so was appended to the cache, and then the path
    constraints or the goal constraints are refused, the request returns a
    null context with the error code of the setter that refused, and the
    cache is as the acquisition left it: the new context is still the last
    one of its entry. *)
Theorem constraint_failure_keeps_cache (m : PlanningContextManager)
    (scene : PlanningScene) (req : MotionPlanRequest)
    (use_constraints_approximation : bool) (s : State)
    (pc : PlannerConfigurationSettings) (f : ModelBasedStateSpaceFactory)
    (a : nat) (s1 : State) (c : ModelBasedPlanningContext) :
  wf s ->
  group_name req <> "" ->
  find_config m req = Some pc ->
  select_factory m pc req = Ok (Some f) ->
  getType f <> CONSTRAINED_TYPE ->
  (forall b, b ∈ cache_entry s (name pc, getType f) -> unique s b = false) ->
  acquire m pc (Some f) req s = Ok (Some a, s1) ->
  objects s1 !! a = Some c ->
  let path := setPathConstraints (path_constraints req) FAILURE (prepared scene req c) in
  let goal := setGoalConstraints (goal_constraints req) (path_constraints req)
                (snd (fst path)) (snd path) in
  fst (fst path) = false \/ (fst (fst path) = true /\ fst (fst goal) = false) ->
  exists s',
    getPlanningContext m (Some scene) req use_constraints_approximation s =
    Ok (None, if fst (fst path) then snd (fst goal) else snd (fst path), s') /\
    contexts_ s' = contexts_ s1 /\
    contexts_ s' =
      <[(name pc, getType f) := (cache_entry s (name pc, getType f) ++ [a])%list]>
        (contexts_ s).
Proof.
  intros Hwf Hg Hpc Hsel Hne Hheld Hacq Hc path goal Hfail.
  rewrite (getPlanningContext_acquired _ _ _ _ _ _ _ _ _ _ Hg Hpc Hsel Hacq Hc).
  assert (Hcache : contexts_ s1 =
    <[(name pc, getType f) := (cache_entry s (name pc, getType f) ++ [a])%list]>
      (contexts_ s)).
  { destruct (acquire_all_held CONSTRAINED_TYPE m pc f req s Hwf Hheld)
      as (a' & s' & Heq & _ & _ & _ & Hc').
    rewrite Heq in Hacq. injection Hacq as <- <-.
    by destruct (decide (getType f <> CONSTRAINED_TYPE)). }
  unfold finish. subst goal. fold path.
  destruct path as [[ok1 code1] c2]. cbn [fst snd] in *.
  destruct Hfail as [->|[-> Hgoal]]; cbn [negb].
  - eexists. split; [reflexivity|]. done.
  - destruct (setGoalConstraints _ _ _ _) as [[ok2 code2] c3]. cbn [fst snd] in *.
    subst ok2. cbn [negb]. eexists. split; [reflexivity|]. done.
Qed.

(** *** The states of a manager *)

(** What can happen to the state: a context is acquired, a request is
    handled, a holder gives its pointer up, and a holder works with its
    context. *)
Inductive step : State -> State -> Prop :=
  | step_acquire m pc f req s r s' :
      acquire m pc (Some f) req s = Ok (r, s') -> step s s'
  | step_request m scene req uca s r code s' :
      getPlanningContext m scene req uca s = Ok (r, code, s') -> step s s'
  | step_release a s : step s (release a s)
  | step_use a c s : is_Some (objects s !! a) -> step s (store a c s).

Definition reachable (s : State) : Prop := rtc step initial s.

(** The effect of a step: the objects stay, and the cache either stays as
    it is or takes one new object at the end of an entry whose type is not
    the constrained one. *)
Definition effect (s s' : State) : Prop :=
  wf s' /\
  (forall x, is_Some (objects s !! x) -> is_Some (objects s' !! x)) /\
  (contexts_ s' = contexts_ s \/
   exists key x,
     snd key <> CONSTRAINED_TYPE /\ objects s !! x = None /\
     contexts_ s' = <[key := (cache_entry s key ++ [x])%list]> (contexts_ s)).

Lemma acquire_effect m pc f req s a s' :
  wf s -> acquire m pc (Some f) req s = Ok (a, s') ->
  effect s s' /\ exists x, a = Some x /\ is_Some (objects s' !! x).
Proof.
  intros Hwf Hacq.
  destruct (acquire_cases CONSTRAINED_TYPE m pc f req s Hwf) as (x & s1 & Heq & Hh & Hcase).
  rewrite Heq in Hacq. injection Hacq as <- <-.
  assert (Hwf1 : wf s1) by (by eapply acquire_wf).
  assert (Halive : forall y, is_Some (objects s !! y) -> is_Some (objects s1 !! y)).
  { intros y Hy.
    destruct Hcase as [(_ & _ & Ho & _)|(_ & _ & Ho & _)]; rewrite Ho.
    - by apply lookup_alter_is_Some.
    - destruct (decide (x = y)) as [->|Hne];
        [rewrite lookup_insert_eq|rewrite lookup_insert_ne]; eauto. }
  split.
  - split_and!; [done|done|].
    destruct Hcase as [(_ & _ & _ & Hc)|(_ & -> & _ & Hc)]; [by left|].
    destruct (decide (getType f <> CONSTRAINED_TYPE)); [|by left].
    right. exists (name pc, getType f), (new_addr s).
    split_and!; [done|apply new_addr_fresh|done].
  - exists x. split; [done|].
    destruct Hcase as [(_ & Hs & _)|(_ & _ & Ho & _)].
    + by apply Halive.
    + rewrite Ho, lookup_insert_eq. eauto.
Qed.

Lemma effect_same_cache s s' :
  wf s' ->
  (forall x, is_Some (objects s !! x) -> is_Some (objects s' !! x)) ->
  contexts_ s' = contexts_ s -> effect s s'.
Proof. intros. split_and!; auto. Qed.

Lemma store_alive a c s x : is_Some (objects s !! x) -> is_Some (objects (store a c s) !! x).
Proof.
  intros Hx. cbn. destruct (decide (a = x)) as [->|Hne];
    [rewrite lookup_insert_eq|rewrite lookup_insert_ne]; eauto.
Qed.

(** A step that follows an acquisition and leaves the cache alone. *)
Lemma effect_then s s1 s' :
  effect s s1 ->
  wf s' ->
  (forall x, is_Some (objects s1 !! x) -> is_Some (objects s' !! x)) ->
  contexts_ s' = contexts_ s1 ->
  effect s s'.
Proof.
  intros (_ & Ho & Hc) Hwf Ho' Hc'. split_and!; [done|auto|].
  by rewrite Hc'.
Qed.

Lemma finish_state scene req uca a s1 c r code s' :
  finish scene req uca a s1 c = Ok (r, code, s') ->
  exists c', s' = store a c' s1 \/ s' = release a (store a c' s1).
Proof.
  unfold finish.
  destruct (setPathConstraints _ _ _) as [[[] code1] c2]; cbn.
  2: { intros [= <- <- <-]. eauto. }
  destruct (setGoalConstraints _ _ _ _) as [[[] code2] c3]; cbn.
  2: { intros [= <- <- <-]. eauto. }
  destruct (configure uca c3) as [c4|[]]; intros [= <- <- <-]; eauto.
Qed.

Lemma request_effect m scene req uca s r code s' :
  wf s -> getPlanningContext m scene req uca s = Ok (r, code, s') -> effect s s'.
Proof.
  intros Hwf Hreq.
  assert (Hsame : effect s s) by (by apply effect_same_cache).
  destruct (decide (group_name req = "")) as [Hg|Hg].
  { unfold Manager.getPlanningContext in Hreq.
    destruct (decide (group_name req = "")); [|done]. by injection Hreq as <- <- <-. }
  destruct scene as [scene|].
  2: { unfold Manager.getPlanningContext in Hreq.
       destruct (decide (group_name req = "")); [done|]. by injection Hreq as <- <- <-. }
  destruct (find_config m req) as [pc|] eqn:Hpc.
  2: { unfold Manager.getPlanningContext in Hreq.
       destruct (decide (group_name req = "")); [done|].
       rewrite Hpc in Hreq. by injection Hreq as <- <- <-. }
  destruct (select_factory m pc req) as [fac|e'] eqn:Hsel.
  2: { unfold Manager.getPlanningContext in Hreq.
       destruct (decide (group_name req = "")); [done|].
       rewrite Hpc, Hsel in Hreq. discriminate. }
  destruct fac as [f|].
  2: { unfold Manager.getPlanningContext in Hreq.
       destruct (decide (group_name req = "")); [done|].
       rewrite Hpc, Hsel in Hreq. discriminate. }
  destruct (acquire_total m pc f req s) as (a & s1 & Hacq).
  destruct (acquire_effect _ _ _ _ _ _ _ Hwf Hacq) as [Heff (x & [= <-] & [c Hc])].
  rewrite (getPlanningContext_acquired _ _ _ _ _ _ _ _ _ _ Hg Hpc Hsel Hacq Hc) in Hreq.
  apply finish_state in Hreq as [c' [->| ->]].
  - eapply effect_then; [exact Heff| | |done].
    + apply store_wf; [eauto|apply Heff].
    + intros y. apply store_alive.
  - eapply effect_then; [exact Heff| | |done].
    + apply release_wf, store_wf; [eauto|apply Heff].
    + intros y. apply store_alive.
Qed.

Lemma step_effect s s' : wf s -> step s s' -> effect s s'.
Proof.
  intros Hwf Hstep. destruct Hstep as [m pc f req s r s' H|m scene req uca s r code s' H|a s|a c s H].
  - by eapply acquire_effect.
  - by eapply request_effect.
  - apply effect_same_cache; [by apply release_wf|done|done].
  - apply effect_same_cache; [by apply store_wf|apply store_alive|done].
Qed.

(** An object that is not in the cache stays out of it. *)
Definition uncached (a : nat) (s : State) : Prop :=
  is_Some (objects s !! a) /\ forall key, a ∉ cache_entry s key.

(** No entry of the cache is filed under the constrained type. *)
Definition no_constrained_entry (s : State) : Prop :=
  forall n, contexts_ s !! (n, CONSTRAINED_TYPE) = None.

Lemma effect_uncached a s s' : effect s s' -> uncached a s -> uncached a s'.
Proof.
  intros (_ & Ho & Hc) [Ha Hout]. split; [auto|].
  intros key Hin. destruct Hc as [Hc|(key' & x & _ & Hx & Hc)].
  - apply (Hout key). unfold cache_entry in *. by rewrite <- Hc.
  - unfold cache_entry in Hin. rewrite Hc in Hin.
    destruct (decide (key' = key)) as [->|Hne].
    + rewrite lookup_insert_eq in Hin. cbn in Hin.
      apply elem_of_app in Hin as [Hin|Hin]; [by apply (Hout key)|].
      apply list_elem_of_singleton in Hin as ->.
      rewrite Hx in Ha. by destruct Ha.
    + rewrite lookup_insert_ne in Hin by done. by apply (Hout key).
Qed.

Lemma effect_no_constrained_entry s s' :
  effect s s' -> no_constrained_entry s -> no_constrained_entry s'.
Proof.
  intros (_ & _ & Hc) Hno n. destruct Hc as [Hc|(key & x & Hk & _ & Hc)]; rewrite Hc.
  - apply Hno.
  - rewrite lookup_insert_ne; [apply Hno|]. intros ->. by apply Hk.
Qed.

Lemma steps_invariant s s' :
  rtc step s s' -> wf s ->
  wf s' /\
  (no_constrained_entry s -> no_constrained_entry s') /\
  (forall a, uncached a s -> uncached a s').
Proof.
  induction 1 as [s|s s1 s2 Hstep _ IH]; intros Hwf; [done|].
  pose proof (step_effect _ _ Hwf Hstep) as Heff.
  destruct (IH (proj1 Heff)) as (Hwf2 & Hno & Hun).
  split_and!; [done| |].
  - intros H. by eapply Hno, effect_no_constrained_entry.
  - intros a H. by eapply Hun, effect_uncached.
Qed.

Lemma reachable_invariant s : reachable s -> wf s /\ no_constrained_entry s.
Proof.
  intros H. destruct (steps_invariant _ _ H wf_initial) as (Hwf & Hno & _).
  split; [done|]. apply Hno. intros n. apply lookup_empty.
Qed.

(** C3: in every state the manager can be in, an acquisition with a factory
    of the constrained type builds a new context and leaves the cache as it
    is; whatever happens afterwards, the context is in no entry of the cache,
    and the cache has no entry under the constrained type at all. *)
Theorem constrained_context_never_cached (m : PlanningContextManager)
    (pc : PlannerConfigurationSettings) (f : ModelBasedStateSpaceFactory)
    (req : MotionPlanRequest) (s : State) :
  reachable s ->
  getType f = CONSTRAINED_TYPE ->
  exists a s',
    acquire m pc (Some f) req s = Ok (Some a, s') /\
    objects s !! a = None /\
    contexts_ s' = contexts_ s /\
    forall s'', rtc step s' s'' ->
      (forall key, a ∉ cache_entry s'' key) /\
      (forall n, contexts_ s'' !! (n, CONSTRAINED_TYPE) = None).
Proof.
  intros Hreach Htype.
  destruct (reachable_invariant s Hreach) as [Hwf Hno].
  destruct (acquire_all_held CONSTRAINED_TYPE m pc f req s Hwf)
    as (a & s' & Hacq & Hnew & Hdistinct & Halive & Hc).
  { intros b Hb. unfold cache_entry in Hb. rewrite Htype, Hno in Hb.
    by apply elem_of_nil in Hb. }
  assert (Hsame : getType f = CONSTRAINED_TYPE -> contexts_ s' = contexts_ s).
  { intros He. by destruct (decide (getType f <> CONSTRAINED_TYPE)). }
  exists a, s'. split_and!; [done|done|by apply Hsame|].
  intros s'' Hsteps.
  assert (Hwf' : wf s') by (by eapply acquire_wf).
  destruct (steps_invariant _ _ Hsteps Hwf') as (_ & Hno'' & Hun).
  split.
  - apply Hun. split; [done|].
    intros key Hin. unfold cache_entry in Hin. rewrite (Hsame Htype) in Hin.
    by apply (Hdistinct key a).
  - apply Hno''. intros n. rewrite (Hsame Htype). apply Hno.
Qed.

End Requests.

(** ** Runs of the manager *)

Definition CONSTRAINED : string := "ConstrainedPlanningJointModel".
Definition JOINT : string := "JointModel".

(** A context class whose constructor starts every limit at zero, whose
    setters accept every constraint and leave the error code alone, and
    whose [configure] succeeds. *)
Definition plain_construct (n : string) (spec : ModelBasedPlanningContextSpecification)
  : ModelBasedPlanningContext :=
  {| getName := n; spec_ := spec;
     max_planning_threads := 0; max_goal_samples := 0;
     max_state_sampling_attempts := 0; max_goal_sampling_attempts := 0;
     max_solution_segment_length := 0%float; minimum_waypoint_count := 0 |}.

Definition plain_methods : ContextMethods :=
  {| construct := plain_construct;
     clear := fun c => c;
     getCurrentStateUpdated := fun _ st => st;
     setPlanningScene := fun _ c => c;
     setMotionPlanRequest := fun _ c => c;
     setCompleteInitialState := fun _ c => c;
     setPlanningVolume := fun _ c => c;
     setPathConstraints := fun _ code c => (true, code, c);
     setGoalConstraints := fun _ _ code c => (true, code, c);
     configure := fun _ c => Ok c |}.

(** The same class, but a request without goal constraints is refused with
    the code of invalid goal constraints. *)
Definition strict_methods : ContextMethods :=
  {| construct := plain_construct;
     clear := fun c => c;
     getCurrentStateUpdated := fun _ st => st;
     setPlanningScene := fun _ c => c;
     setMotionPlanRequest := fun _ c => c;
     setCompleteInitialState := fun _ c => c;
     setPlanningVolume := fun _ c => c;
     setPathConstraints := fun _ code c => (true, code, c);
     setGoalConstraints := fun goals _ code c =>
       match goals with
       | [] => (false, OTHER_CODE (-14), c)
       | _ => (true, code, c)
       end;
     configure := fun _ c => Ok c |}.

(** The same class, but the planning library throws in [configure]. *)
Definition throwing_methods : ContextMethods :=
  {| construct := plain_construct;
     clear := fun c => c;
     getCurrentStateUpdated := fun _ st => st;
     setPlanningScene := fun _ c => c;
     setMotionPlanRequest := fun _ c => c;
     setCompleteInitialState := fun _ c => c;
     setPlanningVolume := fun _ c => c;
     setPathConstraints := fun _ code c => (true, code, c);
     setGoalConstraints := fun _ _ code c => (true, code, c);
     configure := fun _ _ => Throw ompl_Exception |}.

Definition joint_factory : ModelBasedStateSpaceFactory := factory JOINT 100.
Definition constrained_factory : ModelBasedStateSpaceFactory := factory CONSTRAINED (-2).

Definition default_factories : list (string * ModelBasedStateSpaceFactory) :=
  registerStateSpaceFactory constrained_factory
    (registerStateSpaceFactory (factory "PoseModel" (-1))
       (registerStateSpaceFactory joint_factory [])).

Definition arm_config (kv : list (string * string)) : PlannerConfigurationSettings :=
  {| group := "arm"; name := "arm"; config := list_to_map kv |}.

(** A manager with the limits its constructor sets, one configuration for the
    group arm, and the maximum solution segment length [len]. *)
Definition manager (kv : list (string * string)) (len : float) : PlanningContextManager :=
  {| planner_configs_ := {[ "arm" := arm_config kv ]};
     state_space_factories_ := default_factories;
     max_goal_samples_ := 10;
     max_state_sampling_attempts_ := 4;
     max_goal_sampling_attempts_ := 1000;
     max_planning_threads_ := 4;
     max_solution_segment_length_ := len;
     minimum_waypoint_count_ := 2 |}.

Definition one_position_request : MotionPlanRequest :=
  {| group_name := "arm"; planner_id := ""; start_state := 0;
     workspace_parameters := 0;
     path_constraints := {| position_constraints := [7]; orientation_constraints := [] |};
     goal_constraints := [] |}.

Definition acquire_with (methods : ContextMethods) (len : float)
    (f : ModelBasedStateSpaceFactory) (req : MotionPlanRequest) (s : State)
  : Result (option nat * State) :=
  @getPlanningContext_factory methods CONSTRAINED (manager [] len) (arm_config [])
    (Some f) req s.

Definition request_with (methods : ContextMethods) (kv : list (string * string))
    (req : MotionPlanRequest) (s : State)
  : Result (option nat * MoveItErrorCodes * State) :=
  @getPlanningContext boost_lexical_cast_bool methods CONSTRAINED JOINT
    (manager kv 0) (Some 0) req false s.

(** The state after the caller of [r] has given the context back. *)
Definition released (r : Result (option nat * State)) : State :=
  match r with
  | Ok (Some a, s) => release a s
  | Ok (None, s) => s
  | Throw _ => initial
  end.

(** The context a call returns. *)
Definition context_of (r : Result (option nat * State)) : option ModelBasedPlanningContext :=
  match r with
  | Ok (Some a, s) => objects s !! a
  | _ => None
  end.

(** C1 (instance): with the flag of the constrained state space set to 1
    and one position constraint the factory registered under the constrained
    type is selected; with that flag absent and the flag of the joint model
    state space set to 1, the factory registered under the joint model
    type. *)
Lemma select_factory_three_tiers_witness :
  CONSTRAINED <> "" /\ JOINT <> "" /\
  select_factory boost_lexical_cast_bool CONSTRAINED JOINT
    (manager [("enforce_constrained_state_space", "1")] 0)
    (arm_config [("enforce_constrained_state_space", "1")]) one_position_request
  = Ok (Some constrained_factory) /\
  select_factory boost_lexical_cast_bool CONSTRAINED JOINT
    (manager [("enforce_joint_model_state_space", "1")] 0)
    (arm_config [("enforce_joint_model_state_space", "1")]) one_position_request
  = Ok (Some joint_factory).
Proof.
  split; [discriminate|]. split; [discriminate|].
  split.
  - destruct (select_factory_three_tiers boost_lexical_cast_bool CONSTRAINED JOINT
      (manager [("enforce_constrained_state_space", "1")] 0)
      (arm_config [("enforce_constrained_state_space", "1")]) one_position_request
      ltac:(discriminate) ltac:(discriminate)) as (H1 & _).
    apply H1.
    + exists "1". split; reflexivity.
    + left. reflexivity.
    + exists [(JOINT, joint_factory); ("PoseModel", factory "PoseModel" (-1))], [].
      split; [reflexivity|].
      intros k g Hin ->.
      repeat (apply elem_of_cons in Hin as [Hin|Hin]; [discriminate Hin|]).
      by apply elem_of_nil in Hin.
  - destruct (select_factory_three_tiers boost_lexical_cast_bool CONSTRAINED JOINT
      (manager [("enforce_joint_model_state_space", "1")] 0)
      (arm_config [("enforce_joint_model_state_space", "1")]) one_position_request
      ltac:(discriminate) ltac:(discriminate)) as (_ & H2 & _).
    apply H2.
    + left. left. reflexivity.
    + exists "1". split; reflexivity.
    + exists [], [("PoseModel", factory "PoseModel" (-1)); (CONSTRAINED, constrained_factory)].
      split; [reflexivity|].
      intros k g Hin. by apply elem_of_nil in Hin.
Defined.

(** C1 (counterexample): the configuration the request resolves to sets
    enforce_constrained_state_space to the word true, and the request carries
    one position constraint.  The cast of the value throws: no factory is
    selected, neither the constrained one nor one of a lower tier. *)
Lemma unreadable_flag_selects_no_factory :
  find_config (manager [("enforce_constrained_state_space", "true")] 0)
    one_position_request
  = Some (arm_config [("enforce_constrained_state_space", "true")]) /\
  select_factory boost_lexical_cast_bool CONSTRAINED JOINT
    (manager [("enforce_constrained_state_space", "true")] 0)
    (arm_config [("enforce_constrained_state_space", "true")]) one_position_request
  = Throw bad_lexical_cast.
Proof.
  split; [reflexivity|]. vm_compute. reflexivity.
Qed.

(** C2 (counterexample): an acquisition with the constrained factory on the
    empty cache builds a context and appends nothing; after the context is
    given back a second acquisition under the same key returns another
    context. *)
Lemma constrained_miss_is_not_appended :
  let r1 := acquire_with plain_methods 0 constrained_factory one_position_request initial in
  let r2 := acquire_with plain_methods 0 constrained_factory one_position_request
              (released r1) in
  result_value r1 = Some (Some 0) /\
  contexts_ (result_state initial r1) !! ("arm", CONSTRAINED) = None /\
  result_value r2 = Some (Some 1).
Proof.
  cbv zeta. run.
Qed.

(** C2 (instance): on the empty cache the joint factory builds a context,
    and gets the same one again after it is given back. *)
Lemma acquisition_cache_policy_witness :
  wf initial /\
  exists a s' s'',
    acquire_with plain_methods 0 joint_factory empty_request initial = Ok (Some a, s') /\
    acquire_with plain_methods 0 joint_factory empty_request (release a s') = Ok (Some a, s'').
Proof.
  split; [exact wf_initial|].
  destruct (@acquisition_cache_policy plain_methods CONSTRAINED (manager [] 0)
              (arm_config []) joint_factory empty_request initial wf_initial)
    as (a & s' & Hacq & _ & _ & Hagain).
  destruct (Hagain ltac:(discriminate) (manager [] 0) empty_request) as [s'' H].
  exists a, s', s''. split; [exact Hacq|exact H].
Defined.

(** C3 (instance): the constrained factory on the empty cache. *)
Lemma constrained_context_never_cached_witness :
  @reachable boost_lexical_cast_bool plain_methods CONSTRAINED JOINT initial /\
  getType constrained_factory = CONSTRAINED /\
  exists a s',
    acquire_with plain_methods 0 constrained_factory one_position_request initial
    = Ok (Some a, s') /\
    contexts_ s' = contexts_ initial.
Proof.
  split; [apply rtc_refl|]. split; [reflexivity|].
  destruct (@constrained_context_never_cached boost_lexical_cast_bool plain_methods
              CONSTRAINED JOINT (manager [] 0) (arm_config []) constrained_factory
              one_position_request initial (rtc_refl _ _) eq_refl)
    as (a & s' & Hacq & _ & Hsame & _).
  exists a, s'. split; [exact Hacq|exact Hsame].
Defined.

(** C8 (counterexample): a context is acquired while the maximum solution
    segment length of the manager is 0.5 and given back; the length of the
    manager is set to 0 and the context is acquired again.  It comes from the
    cache and still has the length 0.5. *)
Lemma segment_length_not_reapplied :
  let r1 := acquire_with plain_methods 0.5 joint_factory empty_request initial in
  let r2 := acquire_with plain_methods 0 joint_factory empty_request (released r1) in
  result_value r1 = Some (Some 0) /\
  result_value r2 = Some (Some 0) /\
  max_solution_segment_length <$> context_of r2 = Some 0.5%float /\
  max_solution_segment_length_ (manager [] 0) = 0%float.
Proof.
  cbv zeta. run.
Qed.

(** C8 (instance): the first acquisition of a manager. *)
Lemma acquisition_applies_limits_witness :
  wf initial /\
  exists a s' c,
    acquire_with plain_methods 0.5 joint_factory empty_request initial = Ok (Some a, s') /\
    objects s' !! a = Some c /\
    max_planning_threads c = 4 /\ max_goal_samples c = 10 /\
    max_state_sampling_attempts c = 4 /\ max_goal_sampling_attempts c = 1000 /\
    minimum_waypoint_count c = 2 /\
    max_solution_segment_length c = 0.5%float.
Proof.
  split; [exact wf_initial|].
  destruct (@acquisition_applies_limits plain_methods CONSTRAINED (manager [] 0.5)
              (arm_config []) joint_factory empty_request initial wf_initial)
    as (a & s' & c & Hacq & Hc & H1 & H2 & H3 & H4 & H5 & _ & H7 & _).
  exists a, s', c. split_and!; try done. by apply H7.
Defined.

(** C9 (counterexample): the configuration of the group sets
    enforce_constrained_state_space to the word true; the cast of that value
    throws, and the exception leaves the entry point. *)
Lemma bad_lexical_cast_escapes :
  request_with plain_methods [("enforce_constrained_state_space", "true")]
    empty_request initial
  = Throw bad_lexical_cast.
Proof. vm_compute. reflexivity. Qed.

(** C9 (instance): the planning library throws in [configure]; the request
    returns a null context and the generic failure code. *)
Lemma ompl_exception_is_caught_witness :
  exists s',
    request_with throwing_methods [] empty_request initial = Ok (None, FAILURE, s').
Proof.
  destruct (acquire_returns_object (methods := throwing_methods) CONSTRAINED
              (manager [] 0) (arm_config []) joint_factory empty_request initial
              wf_initial) as (a & s1 & c & Hacq & Hc).
  destruct (@ompl_exception_is_caught boost_lexical_cast_bool throwing_methods
              CONSTRAINED JOINT (manager [] 0) (Some 0) empty_request false initial)
    as (Hcaught & _).
  eexists. unfold request_with.
  eapply (Hcaught 0 (arm_config []) (Some joint_factory) a s1 c FAILURE _ FAILURE _);
    try reflexivity; try done.
Defined.

(** C10 (instance): a request without goal constraints on the empty cache.
    The context is built and cached, the goal constraints are refused, and
    the context is still in the cache. *)
Lemma constraint_failure_keeps_cache_witness :
  wf initial /\
  exists a s1 s',
    @getPlanningContext_factory strict_methods CONSTRAINED (manager [] 0)
      (arm_config []) (Some joint_factory) empty_request initial = Ok (Some a, s1) /\
    request_with strict_methods [] empty_request initial
    = Ok (None, OTHER_CODE (-14), s') /\
    contexts_ s' = contexts_ s1 /\
    contexts_ s' !! ("arm", JOINT) = Some [a].
Proof.
  split; [exact wf_initial|].
  destruct (@acquire_returns_object strict_methods CONSTRAINED (manager [] 0)
              (arm_config []) joint_factory empty_request initial wf_initial)
    as (a & s1 & c & Hacq & Hc).
  destruct (@constraint_failure_keeps_cache boost_lexical_cast_bool strict_methods
              CONSTRAINED JOINT (manager [] 0) 0 empty_request false initial
              (arm_config []) joint_factory a s1 c
              wf_initial ltac:(discriminate) eq_refl eq_refl ltac:(discriminate)
              ltac:(intros b Hb; by apply elem_of_nil in Hb) Hacq Hc
              ltac:(right; split; reflexivity))
    as (s' & Hreq & Hsame & Hcache).
  exists a, s1, s'. split_and!; [exact Hacq|exact Hreq|exact Hsame|].
  rewrite Hcache. reflexivity.
Defined.

End ManagerTheory.

(** * Further properties of the allocator *)

Module AllocatorMore.
Import Allocator AllocatorTheory.

Section WithLibraries.

Variable lexical_cast_bool : string -> option bool.
Variable storage_load : string -> SpaceInformationPtr -> PlannerData.

Local Abbreviation allocatePlannerImpl := (allocatePlannerImpl storage_load).
Local Abbreviation allocatePlanner := (allocatePlanner lexical_cast_bool storage_load).
Local Abbreviation impl_final := (impl_final storage_load).

(** A boolean key of the configuration as [allocatePlanner] reads it:
    false when the key is absent, the cast of its value otherwise. *)
Definition read_bool (cfg : gmap string string) (key : string) : Result bool :=
  match cfg !! key with
  | Some v => lexical_cast lexical_cast_bool v
  | None => Ok false
  end.

Definition read_string (cfg : gmap string string) (key : string) : string :=
  default "" (cfg !! key).

Lemma take_bool_read cfg key :
  take_bool lexical_cast_bool key cfg =
  b ← read_bool cfg key; Ok (b, delete key cfg).
Proof.
  unfold take_bool, read_bool. destruct (cfg !! key) as [v|] eqn:H; cbn; [done|].
  by rewrite delete_id.
Qed.

(** X1: [allocatePlannerImpl] never returns a null planner.  The planner is
    a new object of the requested type; it is seeded with the loaded data
    exactly when loading is asked for and the type has a persistent
    constructor, and starts from an empty graph otherwise; the parameters are
    set from [spec.config_]; the name is set unless the requested name is
    empty. *)
Theorem allocatePlannerImpl_result T si new_name spec load store file_path s :
  exists a pl,
    fst (allocatePlannerImpl T si new_name spec load store file_path s) = Some a /\
    objects s !! a = None /\
    objects (snd (allocatePlannerImpl T si new_name spec load store file_path s)) !! a
      = Some pl /\
    planner_type pl = T /\
    planner_graph pl =
      (if load && supports_persistence T then storage_load file_path si
       else empty_data si) /\
    planner_params pl = Some (config_ spec) /\
    planner_name pl = (if decide (new_name = "") then None else Some new_name).
Proof.
  rewrite allocatePlannerImpl_eq. cbn [fst snd objects].
  exists (new_addr s), (impl_final T si new_name spec load file_path).
  split_and!; [done|apply planner_addr_fresh|apply lookup_insert_eq| | |done|].
  - unfold Allocator.impl_final, impl_base.
    destruct load, T; cbn; by destruct (decide (new_name = "")).
  - unfold Allocator.impl_final, impl_base.
    destruct load, T; cbn; by destruct (decide (new_name = "")).
  - unfold Allocator.impl_final, impl_base.
    destruct load, T; cbn; by destruct (decide (new_name = "")).
Qed.

(** X2: without multi-query planning (the key is absent, or reads false)
    an allocation returns a new, non-null planner with the name and the
    parameters set, and leaves [planners_], the recorded storage paths and
    every existing planner object as they were; the keys load_planner_data,
    store_planner_data and planner_data_path are not read. *)
Theorem single_shot_allocation T si new_name spec s :
  read_bool (config_ spec) "multi_query_planning_enabled" = Ok false ->
  exists s',
    allocatePlanner T si new_name spec s = Ok (Some (new_addr s), s') /\
    objects s !! new_addr s = None /\
    objects s' = <[new_addr s := impl_final T si new_name spec false ""]> (objects s) /\
    planners_ s' = planners_ s /\
    planner_data_storage_paths_ s' = planner_data_storage_paths_ s.
Proof.
  intros Hmq. unfold Allocator.allocatePlanner.
  rewrite take_bool_read, Hmq. cbn. rewrite allocatePlannerImpl_eq.
  eexists. split; [reflexivity|]. split; [apply planner_addr_fresh|]. done.
Qed.

(** Without a live instance under the name and with multi-query planning
    enabled, the allocation is [allocatePlannerImpl] on the values read from
    the configuration, and the planner is stored under the name. *)
Lemma allocatePlanner_no_live T si new_name spec s load store :
  read_bool (config_ spec) "multi_query_planning_enabled" = Ok true ->
  planners_ s !! new_name = None ->
  read_bool (config_ spec) "load_planner_data" = Ok load ->
  read_bool (config_ spec) "store_planner_data" = Ok store ->
  allocatePlanner T si new_name spec s =
  let '(p, s') :=
    allocatePlannerImpl T si new_name spec load store
      (read_string (config_ spec) "planner_data_path") s in
  Ok (p, set_planner new_name p s').
Proof.
  intros Hmq Hlive Hload Hstore. unfold Allocator.allocatePlanner.
  rewrite take_bool_read, Hmq. cbn. rewrite Hlive.
  rewrite take_bool_read.
  assert (Hl : read_bool (delete "multi_query_planning_enabled" (config_ spec))
                 "load_planner_data" = Ok load).
  { unfold read_bool in *. by rewrite lookup_delete_ne. }
  rewrite Hl. cbn. rewrite take_bool_read.
  assert (Hs : read_bool (delete "load_planner_data"
                 (delete "multi_query_planning_enabled" (config_ spec)))
                 "store_planner_data" = Ok store).
  { unfold read_bool in *. by rewrite !lookup_delete_ne. }
  rewrite Hs. cbn.
  assert (Hp : fst (take_string "planner_data_path"
                 (delete "store_planner_data" (delete "load_planner_data"
                    (delete "multi_query_planning_enabled" (config_ spec)))))
               = read_string (config_ spec) "planner_data_path").
  { unfold take_string, read_string. rewrite !lookup_delete_ne by done.
    by destruct (config_ spec !! "planner_data_path"). }
  destruct (take_string _ _) as [p cfg']. cbn in Hp. subst p.
  reflexivity.
Qed.

(** X3: the first allocation under a name with multi-query planning enabled.
    The three other keys are read from the configuration; the planner that is
    returned is the one stored under the name in [planners_]; the storage
    path is recorded under the name exactly when store_planner_data reads
    true; other names are left alone. *)
Theorem first_multi_query_allocation T si new_name spec s load store :
  read_bool (config_ spec) "multi_query_planning_enabled" = Ok true ->
  planners_ s !! new_name = None ->
  read_bool (config_ spec) "load_planner_data" = Ok load ->
  read_bool (config_ spec) "store_planner_data" = Ok store ->
  let path := read_string (config_ spec) "planner_data_path" in
  exists s',
    allocatePlanner T si new_name spec s = Ok (Some (new_addr s), s') /\
    objects s' = <[new_addr s := impl_final T si new_name spec load path]> (objects s) /\
    planners_ s' = <[new_name := Some (new_addr s)]> (planners_ s) /\
    planner_data_storage_paths_ s' =
      (if store then <[new_name := path]> (planner_data_storage_paths_ s)
       else planner_data_storage_paths_ s).
Proof.
  intros Hmq Hlive Hload Hstore path.
  rewrite (allocatePlanner_no_live _ _ _ _ _ _ _ Hmq Hlive Hload Hstore).
  rewrite allocatePlannerImpl_eq. eexists. split; [reflexivity|]. done.
Qed.

(** X4: with multi-query planning enabled, a live instance under the name
    and an algorithm type that has a persistent constructor, the allocation
    returns a new planner of that type whose graph has the vertices and edges
    of the live instance; the new planner replaces the live one under the
    name, the old object itself is not changed, and no storage path is
    recorded. *)
Theorem reuse_seeds_from_live_instance T si new_name spec s a old :
  supports_persistence T = true ->
  read_bool (config_ spec) "multi_query_planning_enabled" = Ok true ->
  planners_ s !! new_name = Some (Some a) ->
  objects s !! a = Some old ->
  exists s' pl,
    allocatePlanner T si new_name spec s = Ok (Some (new_addr s), s') /\
    new_addr s <> a /\
    objects s' !! new_addr s = Some pl /\
    planner_type pl = T /\
    numVertices (planner_graph pl) = numVertices (planner_graph old) /\
    numEdges (planner_graph pl) = numEdges (planner_graph old) /\
    objects s' !! a = Some old /\
    planners_ s' = <[new_name := Some (new_addr s)]> (planners_ s) /\
    planner_data_storage_paths_ s' = planner_data_storage_paths_ s.
Proof.
  intros HT Hmq Hlive Hold. unfold Allocator.allocatePlanner.
  rewrite take_bool_read, Hmq. cbn. rewrite Hlive. cbn. rewrite Hold.
  assert (Hne : new_addr s <> a).
  { intros <-. rewrite planner_addr_fresh in Hold. discriminate. }
  destruct T; try discriminate; cbn;
    eexists _, _; (split; [reflexivity|]); cbn;
    (split_and!; [done|apply lookup_insert_eq|done|done|done| |done|done]);
    by rewrite lookup_insert_ne.
Qed.

(** Every name with a recorded storage path has an entry in [planners_]. *)
Definition paths_have_planners (s : State) : Prop :=
  forall n, is_Some (planner_data_storage_paths_ s !! n) -> is_Some (planners_ s !! n).

(** X5: an allocation that returns keeps every planner object that exists,
    changes [planners_] and the recorded storage paths at the requested name
    only, and keeps the invariant that a name with a recorded storage path
    has an entry in [planners_]. *)
Theorem allocation_frame T si new_name spec s p s' :
  allocatePlanner T si new_name spec s = Ok (p, s') ->
  (forall a pl, objects s !! a = Some pl -> objects s' !! a = Some pl) /\
  (forall n, n <> new_name -> planners_ s' !! n = planners_ s !! n) /\
  (forall n, n <> new_name ->
     planner_data_storage_paths_ s' !! n = planner_data_storage_paths_ s !! n) /\
  (paths_have_planners s -> paths_have_planners s').
Proof.
  intros H.
  assert (Hkeep : forall x (a : nat) (pl : Planner),
            objects s !! a = Some pl -> <[new_addr s := x]> (objects s) !! a = Some pl).
  { intros x a pl Ha. rewrite lookup_insert_ne; [done|].
    intros <-. rewrite planner_addr_fresh in Ha. discriminate. }
  assert (Hinv : forall (ps : gmap string (option nat)) (ds : gmap string string),
            (forall n, n <> new_name -> ps !! n = planners_ s !! n) ->
            (forall n, n <> new_name -> ds !! n = planner_data_storage_paths_ s !! n) ->
            (is_Some (ds !! new_name) -> is_Some (ps !! new_name)) ->
            paths_have_planners s ->
            forall n, is_Some (ds !! n) -> is_Some (ps !! n)).
  { intros ps ds Hps Hds Hnew Hs n Hn.
    destruct (decide (n = new_name)) as [->|Hne]; [auto|].
    rewrite Hps by done. apply Hs. by rewrite <- Hds. }
  unfold Allocator.allocatePlanner in H. rewrite take_bool_read in H.
  destruct (read_bool (config_ spec) "multi_query_planning_enabled") as [[|]|e];
    cbn in H; [| |discriminate].
  - destruct (planners_ s !! new_name) as [live|] eqn:Hlive.
    + destruct (deref s live) as [old|]; [|discriminate].
      destruct (allocatePersistentPlanner T _) as [pl|]; cbn in H;
        injection H as <- <-; cbn.
      * split_and!; [by apply Hkeep| | |].
        -- intros n Hn. by rewrite lookup_insert_ne.
        -- done.
        -- intros Hs. unfold paths_have_planners. cbn.
           apply Hinv; [intros n Hn; by rewrite lookup_insert_ne|done| |exact Hs].
           intros _. rewrite lookup_insert_eq. eauto.
      * split_and!; [done| | |].
        -- intros n Hn. by rewrite lookup_insert_ne.
        -- done.
        -- intros Hs. unfold paths_have_planners. cbn.
           apply Hinv; [intros n Hn; by rewrite lookup_insert_ne|done| |exact Hs].
           intros _. rewrite lookup_insert_eq. eauto.
    + rewrite take_bool_read in H.
      destruct (read_bool _ "load_planner_data") as [load|]; cbn in H; [|discriminate].
      rewrite take_bool_read in H.
      destruct (read_bool _ "store_planner_data") as [store|]; cbn in H; [|discriminate].
      destruct (take_string _ _) as [path cfg'].
      rewrite allocatePlannerImpl_eq in H. injection H as <- <-. cbn.
      split_and!; [by apply Hkeep| | |].
      * intros n Hn. by rewrite lookup_insert_ne.
      * intros n Hn. destruct store; [by rewrite lookup_insert_ne|done].
      * intros Hs. unfold paths_have_planners. cbn.
        apply Hinv; [intros n Hn; by rewrite lookup_insert_ne| | |exact Hs].
        -- intros n Hn. destruct store; [by rewrite lookup_insert_ne|done].
        -- intros _. rewrite lookup_insert_eq. eauto.
  - rewrite allocatePlannerImpl_eq in H. injection H as <- <-. cbn.
    split_and!; [by apply Hkeep|done|done|done].
Qed.

(** A key whose value the cast cannot read. *)
Definition unreadable (cfg : gmap string string) (key : string) : Prop :=
  exists v, cfg !! key = Some v /\ lexical_cast_bool v = None.

Lemma read_bool_unreadable cfg key :
  unreadable cfg key -> read_bool cfg key = Throw bad_lexical_cast.
Proof.
  intros (v & Hv & Hcast). unfold read_bool, lexical_cast. by rewrite Hv, Hcast.
Qed.

Lemma read_bool_delete_ne cfg key key' :
  key <> key' -> read_bool (delete key cfg) key' = read_bool cfg key'.
Proof. intros Hne. unfold read_bool. by rewrite lookup_delete_ne. Qed.

(** X6: the boolean keys are cast in the order multi_query_planning_enabled,
    load_planner_data, store_planner_data, the last two only on the first
    allocation under a name with multi-query planning enabled, and a value
    that cannot be read makes the allocation throw [bad_lexical_cast]: a bad
    value of store_planner_data does so even when loading and storing are
    otherwise well configured.  When a live instance exists under the name,
    the configuration is not looked at beyond multi_query_planning_enabled:
    two specifications that enable it give the same result. *)
Theorem unreadable_key_throws T si new_name spec s :
  let cfg := config_ spec in
  (unreadable cfg "multi_query_planning_enabled" ->
     allocatePlanner T si new_name spec s = Throw bad_lexical_cast) /\
  (read_bool cfg "multi_query_planning_enabled" = Ok true ->
   planners_ s !! new_name = None ->
     (unreadable cfg "load_planner_data" ->
        allocatePlanner T si new_name spec s = Throw bad_lexical_cast) /\
     (forall load, read_bool cfg "load_planner_data" = Ok load ->
        unreadable cfg "store_planner_data" ->
        allocatePlanner T si new_name spec s = Throw bad_lexical_cast)) /\
  (forall spec',
     read_bool cfg "multi_query_planning_enabled" = Ok true ->
     read_bool (config_ spec') "multi_query_planning_enabled" = Ok true ->
     is_Some (planners_ s !! new_name) ->
     allocatePlanner T si new_name spec s = allocatePlanner T si new_name spec' s).
Proof.
  intros cfg. split_and!.
  - intros Hmq. unfold Allocator.allocatePlanner. rewrite take_bool_read. fold cfg.
    by rewrite (read_bool_unreadable _ _ Hmq).
  - intros Hmq Hlive. split.
    + intros Hload. unfold Allocator.allocatePlanner. rewrite take_bool_read. fold cfg.
      rewrite Hmq. cbn. rewrite Hlive, take_bool_read.
      rewrite read_bool_delete_ne by done.
      by rewrite (read_bool_unreadable _ _ Hload).
    + intros load Hload Hstore. unfold Allocator.allocatePlanner.
      rewrite take_bool_read. fold cfg.
      rewrite Hmq. cbn. rewrite Hlive, take_bool_read.
      rewrite read_bool_delete_ne by done. rewrite Hload. cbn.
      rewrite take_bool_read. rewrite !read_bool_delete_ne by done.
      by rewrite (read_bool_unreadable _ _ Hstore).
  - intros spec' Hmq Hmq' [live Hlive]. unfold Allocator.allocatePlanner.
    rewrite !take_bool_read. fold cfg. rewrite Hmq, Hmq'. cbn. by rewrite Hlive.
Qed.

End WithLibraries.

End AllocatorMore.

(** * Teardown of the allocator *)

Module Teardown.
Import Allocator.

(** The files of [PlannerDataStorage], by path. *)
Abbreviation Files := (gmap string PlannerData) (only parsing).

(** The entries of a [std::map] with string keys in the order its iterator
    visits them. *)
Definition in_key_order {V} (m : gmap string V) : list (string * V) :=
  foldr (fun kv acc => Manager.map_assign (fst kv) (snd kv) acc) [] (map_to_list m).

Section WithStorage.

(** Whether [PlannerDataStorage] can open the file at a path for writing. *)
Variable writable : string -> bool.

(** [storage_.store(data, path)]: the data is written to the file at the
    path; when the path is not valid an error message is printed and nothing
    is written. *)
Definition storage_store (data : PlannerData) (path : string) (files : Files) : Files :=
  if writable path then <[path := data]> files else files.

(** The loop of the destructor over the entries that are left:
    [planners_[entry.first]] is dereferenced, and its planner data is stored
    in the file [entry.second]. *)
Fixpoint store_all (entries : list (string * string)) (s : State) (files : Files)
  : Result Files :=
  match entries with
  | [] => Ok files
  | (name, path) :: entries' =>
      match planners_ s !! name with
      | Some (Some a) =>
          match objects s !! a with
          | Some planner =>
              let data := getPlannerData planner (empty_data (planner_si planner)) in
              store_all entries' s (storage_store data path files)
          | None => Throw null_dereference
          end
      | _ => Throw null_dereference
      end
  end.

(** [~MultiQueryPlannerAllocator()] *)
Definition destroy (s : State) (files : Files) : Result Files :=
  store_all (in_key_order (planner_data_storage_paths_ s)) s files.

(** The planner stored under a name, when there is one and it is not null. *)
Definition live_planner (s : State) (n : string) : option Planner :=
  match planners_ s !! n with
  | Some (Some a) => objects s !! a
  | _ => None
  end.

Lemma elem_of_map_assign_new {V} (k0 : string) (v0 : V) (m : list (string * V)) k v :
  k0 ∉ (fst <$> m) ->
  (k, v) ∈ Manager.map_assign k0 v0 m <-> (k, v) = (k0, v0) \/ (k, v) ∈ m.
Proof.
  induction m as [|[k' v'] m IH]; intros Hnew; cbn.
  - rewrite list_elem_of_singleton. split; [auto|]. intros [H|H]; [done|].
    by apply elem_of_nil in H.
  - cbn in Hnew. apply not_elem_of_cons in Hnew as [Hne Hnew].
    destruct (String.eqb_spec k0 k') as [->|_]; [done|].
    destruct (String.ltb k0 k').
    + by rewrite elem_of_cons.
    + rewrite !elem_of_cons, (IH Hnew). tauto.
Qed.

Lemma elem_of_in_key_order {V} (m : gmap string V) k v :
  (k, v) ∈ in_key_order m <-> m !! k = Some v.
Proof.
  unfold in_key_order. rewrite <- elem_of_map_to_list.
  pose proof (NoDup_fst_map_to_list m) as Hnd. revert k v.
  induction (map_to_list m) as [|[k0 v0] l IH]; intros k v; cbn in *; [done|].
  apply NoDup_cons in Hnd as [Hnew Hnd].
  rewrite elem_of_map_assign_new.
  - rewrite elem_of_cons, (IH Hnd). reflexivity.
  - intros Hin. apply Hnew. apply list_elem_of_fmap in Hin as [[k1 v1] [-> Hin]].
    apply (IH Hnd) in Hin. apply list_elem_of_fmap. by exists (k1, v1).
Qed.

Lemma storage_store_other data p files path :
  path <> p \/ writable path = false ->
  storage_store data p files !! path = files !! path.
Proof.
  intros H. unfold storage_store. destruct (writable p) eqn:Hp; [|done].
  destruct (decide (path = p)) as [->|Hne].
  - destruct H as [H|H]; [done|congruence].
  - by rewrite lookup_insert_ne.
Qed.

Lemma store_all_ok entries s files :
  (forall n path, (n, path) ∈ entries -> is_Some (live_planner s n)) ->
  exists files',
    store_all entries s files = Ok files' /\
    (forall path, path ∉ (snd <$> entries) \/ writable path = false ->
       files' !! path = files !! path) /\
    (forall n path planner,
       (n, path) ∈ entries -> live_planner s n = Some planner ->
       writable path = true ->
       (forall n', (n', path) ∈ entries -> n' = n) ->
       files' !! path = Some (getPlannerData planner (empty_data (planner_si planner)))).
Proof.
  revert files. induction entries as [|[n0 p0] entries IH]; intros files Hlive; cbn.
  - exists files. split_and!; [done|done|]. intros n path planner H. by apply elem_of_nil in H.
  - destruct (Hlive n0 p0) as [pl0 Hpl0]; [apply list_elem_of_here|].
    unfold live_planner in Hpl0.
    destruct (planners_ s !! n0) as [[a0|]|] eqn:Hn0; try discriminate.
    rewrite Hpl0.
    destruct (IH (storage_store (getPlannerData pl0 (empty_data (planner_si pl0))) p0 files))
      as (files' & Hok & Hother & Hmine).
    { intros n path Hin. apply (Hlive n path). by apply list_elem_of_further. }
    exists files'. split_and!; [done| |].
    + intros path Hnot. rewrite Hother.
      * apply storage_store_other.
        destruct Hnot as [Hnot|Hw]; [|by right].
        apply not_elem_of_cons in Hnot as [Hne _]. by left.
      * destruct Hnot as [Hnot|Hw]; [|by right].
        apply not_elem_of_cons in Hnot as [_ Hnot]. by left.
    + intros n path planner Hin Hpl Hw Huniq.
      destruct (decide (path ∈ (snd <$> entries))) as [Hlater|Hnot].
      * apply list_elem_of_fmap in Hlater as [[n' p'] [Hp Hin']]. cbn in Hp. subst p'.
        assert (n' = n) as -> by (apply Huniq; by apply list_elem_of_further).
        apply (Hmine n path planner Hin' Hpl Hw).
        intros n'' Hin''. apply Huniq. by apply list_elem_of_further.
      * apply elem_of_cons in Hin as [[= -> ->]|Hin].
        -- rewrite (Hother p0 (or_introl Hnot)). unfold storage_store. rewrite Hw.
           rewrite lookup_insert_eq.
           unfold live_planner in Hpl. rewrite Hn0 in Hpl. congruence.
        -- exfalso. apply Hnot. apply list_elem_of_fmap. by exists (n, path).
Qed.

Lemma store_all_null entries s files n path :
  (n, path) ∈ entries -> live_planner s n = None ->
  store_all entries s files = Throw null_dereference.
Proof.
  revert files. induction entries as [|[n0 p0] entries IH]; intros files Hin Hnull.
  - by apply elem_of_nil in Hin.
  - cbn. destruct (planners_ s !! n0) as [[a0|]|] eqn:Hn0; try done.
    destruct (objects s !! a0) as [pl0|] eqn:Ha0; [|done].
    apply elem_of_cons in Hin as [[= -> ->]|Hin].
    + unfold live_planner in Hnull. rewrite Hn0, Ha0 in Hnull. discriminate.
    + by apply IH.
Qed.

(** X7: when every name with a recorded storage path has a live planner,
    the destructor hands, for each of them, the planner data of that planner
    to the storage at its path: a path that can be written and is recorded
    for one name only ends up holding the vertex and edge counts of that
    planner at teardown; a file whose path is not recorded, or cannot be
    written (an invalid path, such as the empty one recorded when
    planner_data_path is absent), is left as it was.  When a recorded name
    has no planner or a null one, the destructor dereferences a null
    pointer. *)
Theorem destructor_stores_planner_data (s : State) (files : Files) :
  ((forall n path, planner_data_storage_paths_ s !! n = Some path ->
      is_Some (live_planner s n)) ->
   exists files',
     destroy s files = Ok files' /\
     (forall path,
        (forall n, planner_data_storage_paths_ s !! n <> Some path) ->
        files' !! path = files !! path) /\
     (forall path, writable path = false -> files' !! path = files !! path) /\
     (forall n path planner,
        planner_data_storage_paths_ s !! n = Some path ->
        live_planner s n = Some planner ->
        writable path = true ->
        (forall n', planner_data_storage_paths_ s !! n' = Some path -> n' = n) ->
        exists data, files' !! path = Some data /\
          numVertices data = numVertices (planner_graph planner) /\
          numEdges data = numEdges (planner_graph planner))) /\
  (forall n path,
     planner_data_storage_paths_ s !! n = Some path -> live_planner s n = None ->
     destroy s files = Throw null_dereference).
Proof.
  split.
  - intros Hlive.
    destruct (store_all_ok (in_key_order (planner_data_storage_paths_ s)) s files)
      as (files' & Hok & Hother & Hmine).
    { intros n path Hin. apply (Hlive n path). by apply elem_of_in_key_order. }
    exists files'. split_and!; [done| | |].
    + intros path Hnot. apply Hother. left. intros Hin.
      apply list_elem_of_fmap in Hin as [[n p] [-> Hin]].
      apply elem_of_in_key_order in Hin. by apply (Hnot n).
    + intros path Hw. apply Hother. by right.
    + intros n path planner Hn Hpl Hw Huniq. eexists. split.
      * apply (Hmine n path planner); [by apply elem_of_in_key_order|done|done|].
        intros n' Hin. apply Huniq. by apply elem_of_in_key_order.
      * done.
  - intros n path Hn Hnull. unfold destroy.
    eapply store_all_null; [|done]. by apply elem_of_in_key_order.
Qed.

End WithStorage.

End Teardown.

(** * Further properties of the manager *)

Module ManagerMore.
Import Manager ManagerTheory.

(** ** Lookup of a state space factory by type *)

Lemma map_find_Some {V} (k : string) (m : list (string * V)) k' v :
  map_find k m = Some (k', v) -> k' = k /\ (k, v) ∈ m.
Proof.
  induction m as [|[k0 v0] m IH]; cbn; [done|].
  destruct (String.eqb_spec k k0) as [->|Hne].
  - intros [= <- <-]. split; [done|apply list_elem_of_here].
  - intros H. destruct (IH H) as [-> Hin]. split; [done|by apply list_elem_of_further].
Qed.

Lemma map_find_None {V} (k : string) (m : list (string * V)) :
  map_find k m = None <-> forall k' v, (k', v) ∈ m -> k' <> k.
Proof.
  induction m as [|[k0 v0] m IH]; cbn.
  - split; [|done]. intros _ k' v H. by apply elem_of_nil in H.
  - destruct (String.eqb_spec k k0) as [->|Hne].
    + split; [done|]. intros H. exfalso. apply (H k0 v0); [apply list_elem_of_here|done].
    + rewrite IH. split.
      * intros H k' v [[= -> ->]|Hin]%elem_of_cons; [done|by eapply H].
      * intros H k' v Hin. apply (H k' v). by apply list_elem_of_further.
Qed.

(** X8: [getStateSpaceFactory(factory_type)] with a type that is not empty
    returns a factory that is stored under exactly that type, and the empty
    result exactly when no entry has that type; with the empty type it
    returns the first entry of the registry, and the empty result only when
    the registry is empty. *)
Theorem getStateSpaceFactory_type_spec
    (fs : list (string * ModelBasedStateSpaceFactory)) (factory_type : string) :
  (factory_type <> "" ->
     (forall f, getStateSpaceFactory_type fs factory_type = Some f ->
        (factory_type, f) ∈ fs) /\
     (getStateSpaceFactory_type fs factory_type = None <->
        forall k f, (k, f) ∈ fs -> k <> factory_type)) /\
  (factory_type = "" ->
     getStateSpaceFactory_type fs factory_type = snd <$> head fs /\
     (getStateSpaceFactory_type fs factory_type = None <-> fs = [])).
Proof.
  unfold getStateSpaceFactory_type. split.
  - intros Hne. destruct (decide (factory_type = "")); [done|]. split.
    + intros f Hf. destruct (map_find factory_type fs) as [[k g]|] eqn:Hfind; [|done].
      injection Hf as ->. by apply map_find_Some in Hfind as [_ ?].
    + rewrite <- map_find_None.
      destruct (map_find factory_type fs) as [[k g]|]; split; done.
  - intros ->. destruct (decide ("" = "")); [|done].
    destruct fs as [|[k g] fs]; cbn; split; done.
Qed.

(** ** Resolution of the planner configuration *)

(** [g] occurs in [s]. *)
Definition contains (g s : string) : Prop :=
  exists pre post, s = pre ++ g ++ post.

Lemma prefix_app (g r : string) : String.prefix g (g ++ r) = true.
Proof.
  induction g as [|a g IH]; [by destruct r|].
  change (String.prefix (String a g) (String a (g ++ r)) = true). cbn.
  destruct (Ascii.ascii_dec a a); [exact IH|done].
Qed.

Lemma index_prefix (g s : string) :
  String.prefix g s = true -> is_Some (String.index 0 g s).
Proof.
  intros H. destruct s as [|b s].
  - destruct g; [cbn; eauto|discriminate].
  - unfold String.index; fold String.index. rewrite H. eauto.
Qed.

Lemma index_app (g pre post : string) :
  is_Some (String.index 0 g (pre ++ g ++ post)).
Proof.
  induction pre as [|b pre IH].
  - change (is_Some (String.index 0 g (g ++ post))). apply index_prefix, prefix_app.
  - change (is_Some (String.index 0 g (String b (pre ++ g ++ post)))).
    unfold String.index; fold String.index.
    destruct (String.prefix g _); [eauto|].
    destruct IH as [n ->]. eauto.
Qed.

Lemma substring_0_split (l : nat) (s : string) :
  String.length (String.substring 0 l s) = l ->
  exists post, s = String.substring 0 l s ++ post.
Proof.
  revert s. induction l as [|l IH]; intros s.
  - intros _. exists s. by destruct s.
  - destruct s as [|c s]; [discriminate|].
    change (String.substring 0 (S l) (String c s))
      with (String c (String.substring 0 l s)).
    intros [= H]. destruct (IH s H) as [post Hs]. exists post.
    change (String c s = String c (String.substring 0 l s ++ post)).
    by f_equal.
Qed.

Lemma substring_split (n l : nat) (s : string) :
  String.length (String.substring n l s) = l ->
  exists pre post, s = pre ++ String.substring n l s ++ post.
Proof.
  revert s. induction n as [|n IH]; intros s H.
  - destruct (substring_0_split l s H) as [post Hs]. exists "", post. exact Hs.
  - destruct s as [|c s].
    + destruct l; [|discriminate]. exists "", "". reflexivity.
    + change (String.substring (S n) l (String c s)) with (String.substring n l s) in *.
      destruct (IH s H) as (pre & post & Hs). exists (String c pre), post.
      change (String c s = String c (pre ++ String.substring n l s ++ post)).
      by f_equal.
Qed.

Lemma index_contains (g s : string) :
  String.index 0 g s = None <-> ~ contains g s.
Proof.
  split.
  - intros H (pre & post & ->). destruct (index_app g pre post) as [n Hn]. congruence.
  - intros H. destruct (String.index 0 g s) as [n|] eqn:Hi; [|done].
    exfalso. apply H. apply index_correct1 in Hi.
    destruct (substring_split n (String.length g) s) as (pre & post & Hs).
    + by rewrite Hi.
    + rewrite Hi in Hs. by exists pre, post.
Qed.

(** X9: the configuration of a request.  Without a planner id it is the
    one stored under the group name.  With a planner id in which the group
    name occurs, the planner id itself is the key; with one in which it does
    not occur, the key is group[planner id]; in both cases the configuration
    stored under the group name is used when that key is missing.  So a
    request is always resolved when its group has a configuration. *)
Theorem find_config_spec (m : PlanningContextManager) (req : MotionPlanRequest) :
  let configs := planner_configs_ m in
  let fallback (key : string) :=
    match configs !! key with
    | Some c => Some c
    | None => configs !! group_name req
    end in
  (planner_id req = "" -> find_config m req = configs !! group_name req) /\
  (planner_id req <> "" -> contains (group_name req) (planner_id req) ->
     find_config m req = fallback (planner_id req)) /\
  (planner_id req <> "" -> ~ contains (group_name req) (planner_id req) ->
     find_config m req =
     fallback (group_name req ++ "[" ++ planner_id req ++ "]")) /\
  (is_Some (configs !! group_name req) -> is_Some (find_config m req)).
Proof.
  intros configs fallback. unfold find_config, fallback, configs. split_and!.
  - intros ->. by destruct (decide ("" <> "")).
  - intros Hid Hc. destruct (decide (planner_id req <> "")); [|done].
    destruct (String.index 0 (group_name req) (planner_id req)) eqn:Hi; [done|].
    by apply index_contains in Hi.
  - intros Hid Hc. destruct (decide (planner_id req <> "")); [|done].
    apply index_contains in Hc. by rewrite Hc.
  - intros Hg. destruct (decide (planner_id req <> "")); [|done].
    destruct (planner_configs_ m !! match _ with Some _ => _ | None => _ end);
      [eauto|exact Hg].
Qed.

(** ** Outcomes of a request *)

Section Requests.

Variable lexical_cast_bool : string -> option bool.
Context {methods : ContextMethods}.
Variable CONSTRAINED_TYPE : string.
Variable JOINT_TYPE : string.

Local Abbreviation acquire := (getPlanningContext_factory CONSTRAINED_TYPE).
Local Abbreviation config_flag := (config_flag lexical_cast_bool).
Local Abbreviation select_factory :=
  (select_factory lexical_cast_bool CONSTRAINED_TYPE JOINT_TYPE).
Local Abbreviation getPlanningContext :=
  (getPlanningContext lexical_cast_bool CONSTRAINED_TYPE JOINT_TYPE).

Lemma acquire_holders m pc f req s a s1 :
  acquire m pc (Some f) req s = Ok (Some a, s1) ->
  holders s1 = holders (hold a s).
Proof.
  destruct (cached_lookup s (name pc, getType f)) as [b|] eqn:H.
  - rewrite (acquire_hit _ _ _ _ _ _ _ H). by intros [= <- <-].
  - rewrite (acquire_miss _ _ _ _ _ _ H). intros [= <- <-]. cbn zeta.
    by destruct (decide (getType f <> CONSTRAINED_TYPE)).
Qed.

(** A request that returns either stopped before the acquisition, with the
    state untouched, or acquired a context and went through its setup. *)
Lemma request_cases m scene req uca s r code s' :
  getPlanningContext m scene req uca s = Ok (r, code, s') ->
  (r = None /\ s' = s /\ (code = INVALID_GROUP_NAME \/ code = FAILURE)) \/
  (exists sc pc f a s1 c,
     scene = Some sc /\ group_name req <> "" /\
     find_config m req = Some pc /\
     select_factory m pc req = Ok (Some f) /\
     acquire m pc (Some f) req s = Ok (Some a, s1) /\
     objects s1 !! a = Some c /\
     finish sc req uca a s1 c = Ok (r, code, s')).
Proof.
  intros Hreq.
  destruct (decide (group_name req = "")) as [Hg|Hg].
  { unfold Manager.getPlanningContext in Hreq.
    destruct (decide (group_name req = "")); [|done].
    injection Hreq as <- <- <-. left. auto. }
  destruct scene as [sc|].
  2: { unfold Manager.getPlanningContext in Hreq.
       destruct (decide (group_name req = "")); [done|].
       injection Hreq as <- <- <-. left. auto. }
  destruct (find_config m req) as [pc|] eqn:Hpc.
  2: { unfold Manager.getPlanningContext in Hreq.
       destruct (decide (group_name req = "")); [done|].
       rewrite Hpc in Hreq. injection Hreq as <- <- <-. left. auto. }
  destruct (select_factory m pc req) as [fac|e'] eqn:Hsel.
  2: { unfold Manager.getPlanningContext in Hreq.
       destruct (decide (group_name req = "")); [done|].
       rewrite Hpc, Hsel in Hreq. discriminate. }
  destruct fac as [f|].
  2: { unfold Manager.getPlanningContext in Hreq.
       destruct (decide (group_name req = "")); [done|].
       rewrite Hpc, Hsel in Hreq. discriminate. }
  destruct (acquire_total CONSTRAINED_TYPE m pc f req s) as (a & s1 & Hacq).
  destruct (objects s1 !! a) as [c|] eqn:Hc.
  - rewrite (getPlanningContext_acquired _ _ _ _ _ _ _ _ _ _ _ _ _ Hg Hpc Hsel Hacq Hc) in Hreq.
    right. exists sc, pc, f, a, s1, c. split_and!; done.
  - rewrite (getPlanningContext_dangling _ _ _ _ _ _ _ _ _ _ _ _ Hg Hpc Hsel Hacq Hc) in Hreq.
    discriminate.
Qed.

Lemma finish_cases sc req uca a s1 c r code s' :
  finish sc req uca a s1 c = Ok (r, code, s') ->
  (exists c', r = Some a /\ code = SUCCESS /\ s' = store a c' s1) \/
  (exists c', r = None /\ s' = release a (store a c' s1)).
Proof.
  unfold finish.
  destruct (setPathConstraints _ _ _) as [[[] code1] c2]; cbn.
  2: { intros [= <- <- <-]. eauto. }
  destruct (setGoalConstraints _ _ _ _) as [[[] code2] c3]; cbn.
  2: { intros [= <- <- <-]. eauto. }
  destruct (configure uca c3) as [c4|[]]; intros [= <- <- <-]; eauto.
Qed.

(** X10: a request returns a context that is not null only together with
    the error code SUCCESS; that context is then an existing object with one
    holder more than before the request, and the holders of every other
    context are as before.  A request that returns a null context leaves the
    holders of every context as they were: the context it had acquired is
    given back. *)
Theorem request_outcome (m : PlanningContextManager)
    (planning_scene : option PlanningScene) (req : MotionPlanRequest)
    (use_constraints_approximation : bool) (s : State)
    (r : option nat) (code : MoveItErrorCodes) (s' : State) :
  getPlanningContext m planning_scene req use_constraints_approximation s
    = Ok (r, code, s') ->
  (forall a, r = Some a ->
     code = SUCCESS /\ is_Some (objects s' !! a) /\
     holders_of s' a = S (holders_of s a) /\
     forall x, x <> a -> holders_of s' x = holders_of s x) /\
  (r = None -> forall x, holders_of s' x = holders_of s x).
Proof.
  intros Hreq.
  destruct (request_cases _ _ _ _ _ _ _ _ Hreq)
    as [(-> & -> & _)|(sc & pc & f & a & s1 & c & _ & _ & _ & _ & Hacq & Hc & Hfin)].
  { split; [discriminate|done]. }
  pose proof (acquire_holders _ _ _ _ _ _ _ Hacq) as Hh.
  destruct (finish_cases _ _ _ _ _ _ _ _ _ Hfin) as [(c' & -> & -> & ->)|(c' & -> & ->)].
  - split; [|discriminate]. intros a' [= <-]. split_and!.
    + done.
    + rewrite store_lookup. eauto.
    + unfold holders_of. cbn. rewrite Hh. cbn. by rewrite lookup_insert_eq.
    + intros x Hx. unfold holders_of. cbn. rewrite Hh. cbn. by rewrite lookup_insert_ne.
  - split; [discriminate|]. intros _ x.
    apply (holders_of_release_hold s (store a c' s1) a x). exact Hh.
Qed.

(** X11: when a request resolves a configuration and the selection ends on
    the empty factory (no factory is registered under the enforced type, or
    no factory has a priority above zero), the request does not return: the
    empty factory pointer is dereferenced. *)
Theorem empty_factory_is_dereferenced (m : PlanningContextManager)
    (scene : PlanningScene) (req : MotionPlanRequest)
    (use_constraints_approximation : bool) (s : State)
    (pc : PlannerConfigurationSettings) :
  group_name req <> "" ->
  find_config m req = Some pc ->
  select_factory m pc req = Ok None ->
  getPlanningContext m (Some scene) req use_constraints_approximation s
    = Throw null_dereference.
Proof.
  intros Hg Hpc Hsel. unfold Manager.getPlanningContext.
  destruct (decide (group_name req = "")); [done|].
  by rewrite Hpc, Hsel.
Qed.

(** A key whose value the cast cannot read. *)
Definition unreadable (cfg : gmap string string) (key : string) : Prop :=
  exists v, cfg !! key = Some v /\ lexical_cast_bool v = None.



End Requests.

(** ** Sharing of cached contexts *)

Section Sharing.

Variable lexical_cast_bool : string -> option bool.
Context {methods : ContextMethods}.
Variable CONSTRAINED_TYPE : string.
Variable JOINT_TYPE : string.

Local Abbreviation acquire := (getPlanningContext_factory CONSTRAINED_TYPE).
Local Abbreviation select_factory :=
  (select_factory lexical_cast_bool CONSTRAINED_TYPE JOINT_TYPE).
Local Abbreviation getPlanningContext :=
  (getPlanningContext lexical_cast_bool CONSTRAINED_TYPE JOINT_TYPE).
Local Abbreviation step := (step lexical_cast_bool CONSTRAINED_TYPE JOINT_TYPE).
Local Abbreviation reachable := (reachable lexical_cast_bool CONSTRAINED_TYPE JOINT_TYPE).
Local Abbreviation effect := (effect CONSTRAINED_TYPE).

(** The steps that leave the holders of the context [a] alone: every step
    but a release of [a]. *)
Inductive step_keeping (a : nat) : State -> State -> Prop :=
  | keeping_acquire m pc f req s r s' :
      acquire m pc (Some f) req s = Ok (r, s') -> step_keeping a s s'
  | keeping_request m scene req uca s r code s' :
      getPlanningContext m scene req uca s = Ok (r, code, s') -> step_keeping a s s'
  | keeping_release b s : b <> a -> step_keeping a s (release b s)
  | keeping_use b c s : is_Some (objects s !! b) -> step_keeping a s (store b c s).

Lemma step_keeping_step a s s' : step_keeping a s s' -> step s s'.
Proof.
  intros [m pc f req s0 r s0' H|m scene req uca s0 r code s0' H|b s0 _|b c s0 H].
  - by eapply step_acquire.
  - by eapply step_request.
  - apply step_release.
  - by apply step_use.
Qed.

(** The context [a] is an object with a holder. *)
Definition held (a : nat) (s : State) : Prop :=
  wf s /\ is_Some (objects s !! a) /\ 1 <= holders_of s a.

Lemma holders_of_hold s x a : holders_of s a <= holders_of (hold x s) a.
Proof.
  unfold holders_of at 2, hold. cbn.
  destruct (decide (x = a)) as [->|Hne].
  - rewrite lookup_insert_eq. cbn. lia.
  - rewrite lookup_insert_ne by done. reflexivity.
Qed.

Lemma holders_of_same s s' a : holders s' = holders s -> holders_of s' a = holders_of s a.
Proof. intros H. unfold holders_of. by rewrite H. Qed.

Lemma step_keeping_held a s s' : step_keeping a s s' -> held a s -> held a s'.
Proof.
  intros Hstep (Hwf & Halive & Hheld).
  destruct (step_effect _ _ _ _ _ Hwf (step_keeping_step _ _ _ Hstep)) as (Hwf' & Hobj & _).
  split_and!; [done|by apply Hobj|].
  destruct Hstep as [m pc f req s r s' H|m scene req uca s r code s' H|b s Hb|b c s H].
  - destruct (acquire_effect _ _ _ _ _ _ _ _ Hwf H) as [_ (x & -> & _)].
    rewrite (holders_of_same _ _ _ (acquire_holders _ _ _ _ _ _ _ _ H)).
    pose proof (holders_of_hold s x a). lia.
  - destruct (request_cases _ _ _ _ _ _ _ _ _ _ _ H)
      as [(_ & -> & _)|(sc & pc & f & x & s1 & c & _ & _ & _ & _ & Hacq & _ & Hfin)];
      [done|].
    pose proof (acquire_holders _ _ _ _ _ _ _ _ Hacq) as Hh.
    destruct (finish_cases _ _ _ _ _ _ _ _ _ Hfin) as [(c' & _ & _ & ->)|(c' & _ & ->)].
    + rewrite (holders_of_same (hold x s) (store x c' s1) a Hh).
      pose proof (holders_of_hold s x a). lia.
    + by rewrite (holders_of_release_hold s (store x c' s1) x a Hh).
  - unfold holders_of, release. cbn. by rewrite lookup_insert_ne.
  - done.
Qed.

Lemma steps_keeping_held a s s' : rtc (step_keeping a) s s' -> held a s -> held a s'.
Proof.
  induction 1 as [s|s s1 s2 Hstep _ IH]; intros Hheld; [done|].
  apply IH. by eapply step_keeping_held.
Qed.

(** An acquisition does not return a context that has a holder. *)
Lemma held_not_acquired a s m pc f req b s' :
  held a s -> acquire m pc (Some f) req s = Ok (Some b, s') -> b <> a.
Proof.
  intros (Hwf & Halive & Hheld) Hacq ->.
  destruct (acquire_cases CONSTRAINED_TYPE m pc f req s Hwf) as (b & s1 & Heq & _ & Hcase).
  rewrite Heq in Hacq. injection Hacq as <- <-.
  destruct Hcase as [(Hlook & _)|(_ & Hb & _)].
  - apply cached_lookup_Some in Hlook as [_ Hu]. unfold unique in Hu.
    apply Nat.eqb_eq in Hu. lia.
  - rewrite Hb, new_addr_fresh in Halive. by destruct Halive.
Qed.

(** X13: the context an acquisition returns had no holder before and has
    exactly one after; as long as it is not given back, whatever
    acquisitions, requests, uses and releases of other contexts follow, it
    keeps a holder, and no acquisition and no request, whatever its
    configuration, factory and request, returns it again. *)
Theorem acquisition_is_exclusive (m : PlanningContextManager)
    (pc : PlannerConfigurationSettings) (f : ModelBasedStateSpaceFactory)
    (req : MotionPlanRequest) (s : State) (a : nat) (s1 : State) :
  wf s ->
  acquire m pc (Some f) req s = Ok (Some a, s1) ->
  holders_of s a = 0 /\
  holders_of s1 a = 1 /\
  forall s2, rtc (step_keeping a) s1 s2 ->
    1 <= holders_of s2 a /\
    (forall m' pc' f' req' b s3,
       acquire m' pc' (Some f') req' s2 = Ok (Some b, s3) -> b <> a) /\
    (forall m' scene' req' uca' b code s3,
       getPlanningContext m' scene' req' uca' s2 = Ok (Some b, code, s3) -> b <> a).
Proof.
  intros Hwf Hacq.
  assert (H0 : holders_of s a = 0).
  { destruct (acquire_cases CONSTRAINED_TYPE m pc f req s Hwf) as (a' & s' & Heq & _ & Hcase).
    rewrite Heq in Hacq. injection Hacq as <- <-.
    destruct Hcase as [(Hlook & _)|(_ & -> & _)].
    - apply cached_lookup_Some in Hlook as [_ Hu]. unfold unique in Hu.
      by apply Nat.eqb_eq in Hu.
    - apply (proj2 Hwf), new_addr_fresh. }
  assert (H1 : holders_of s1 a = 1).
  { unfold holders_of. rewrite (acquire_holders _ _ _ _ _ _ _ _ Hacq). cbn.
    by rewrite lookup_insert_eq, H0. }
  split_and!; [done|done|].
  intros s2 Hsteps.
  assert (Hheld : held a s2).
  { apply (steps_keeping_held a s1 s2 Hsteps).
    destruct (acquire_effect _ _ _ _ _ _ _ _ Hwf Hacq) as [(Hwf1 & _) (x & [= <-] & Halive)].
    split_and!; [done|done|lia]. }
  split_and!.
  - apply Hheld.
  - intros m' pc' f' req' b s3 Hacq'. by eapply held_not_acquired.
  - intros m' scene' req' uca' b code s3 Hreq.
    destruct (request_cases _ _ _ _ _ _ _ _ _ _ _ Hreq)
      as [(? & _)|(sc & pc' & f' & x & sx & c & _ & _ & _ & _ & Hacq' & _ & Hfin)];
      [discriminate|].
    destruct (finish_cases _ _ _ _ _ _ _ _ _ Hfin) as [(c' & Hb & _)|(c' & ? & _)];
      [|discriminate].
    injection Hb as ->. by eapply held_not_acquired.
Qed.

(** No context is cached twice: the entries have no repetitions and no
    context in common. *)
Definition cached_once (s : State) : Prop :=
  (forall key, NoDup (cache_entry s key)) /\
  (forall key key' x, x ∈ cache_entry s key -> x ∈ cache_entry s key' -> key = key').

Lemma effect_cache_entry s s' key :
  effect s s' ->
  cache_entry s' key = cache_entry s key \/
  exists x, objects s !! x = None /\ cache_entry s' key = (cache_entry s key ++ [x])%list /\
            forall key', key' <> key -> cache_entry s' key' = cache_entry s key'.
Proof.
  intros (_ & _ & [Hc|(k & x & _ & Hx & Hc)]).
  - left. unfold cache_entry. by rewrite Hc.
  - destruct (decide (k = key)) as [->|Hne].
    + right. exists x. split_and!; [done| |].
      * unfold cache_entry. rewrite Hc, lookup_insert_eq. reflexivity.
      * intros key' Hk. unfold cache_entry. by rewrite Hc, lookup_insert_ne.
    + left. unfold cache_entry. by rewrite Hc, lookup_insert_ne.
Qed.

Lemma effect_prefix s s' key :
  effect s s' -> cache_entry s key `prefix_of` cache_entry s' key.
Proof.
  intros H. destruct (effect_cache_entry s s' key H) as [->|(x & _ & -> & _)].
  - done.
  - by apply prefix_app_r.
Qed.

Lemma effect_cached_once s s' :
  wf s -> effect s s' -> cached_once s -> cached_once s'.
Proof.
  intros Hwf Heff [Hnd Hdis].
  destruct Heff as (Hwf' & Ho & [Hc|(k & x & _ & Hx & Hc)]).
  { split.
    - intros key. unfold cache_entry. rewrite Hc. apply Hnd.
    - intros key key' y. unfold cache_entry. rewrite Hc. apply Hdis. }
  assert (Hfresh : forall key, x ∉ cache_entry s key).
  { intros key Hin. apply (cache_entry_alive _ _ _ Hwf) in Hin.
    rewrite Hx in Hin. by destruct Hin. }
  assert (Hentry : forall key,
    cache_entry s' key =
    if decide (k = key) then (cache_entry s key ++ [x])%list else cache_entry s key).
  { intros key. destruct (decide (k = key)) as [->|Hne]; unfold cache_entry; rewrite Hc.
    - rewrite lookup_insert_eq. reflexivity.
    - by rewrite lookup_insert_ne. }
  split.
  - intros key. rewrite Hentry. destruct (decide (k = key)) as [->|Hne]; [|apply Hnd].
    apply NoDup_app. split_and!; [apply Hnd| |apply NoDup_singleton].
    intros y Hy Hy'. apply list_elem_of_singleton in Hy' as ->. by apply (Hfresh key).
  - intros key key' y. rewrite !Hentry.
    destruct (decide (k = key)) as [->|Hne], (decide (key = key')) as [->|Hne'];
      try done.
    + destruct (decide (key = key')); [done|].
      intros [Hy| ->%list_elem_of_singleton]%elem_of_app Hy'.
      * by apply (Hdis key key' y).
      * by apply Hfresh in Hy'.
    + destruct (decide (k = key')) as [->|Hne''].
      * intros Hy [Hy'| ->%list_elem_of_singleton]%elem_of_app.
        -- by apply (Hdis key key' y).
        -- by apply Hfresh in Hy.
      * apply Hdis.
Qed.

Lemma steps_cached_once s s' :
  rtc step s s' -> wf s -> cached_once s ->
  wf s' /\ cached_once s' /\ forall key, cache_entry s key `prefix_of` cache_entry s' key.
Proof.
  induction 1 as [s|s s1 s2 Hstep _ IH]; intros Hwf Honce; [done|].
  pose proof (step_effect _ _ _ _ _ Hwf Hstep) as Heff.
  destruct (IH (proj1 Heff) (effect_cached_once _ _ Hwf Heff Honce)) as (Hwf2 & Honce2 & Hpre).
  split_and!; [done|done|].
  intros key. etrans; [by apply effect_prefix|apply Hpre].
Qed.

Lemma cached_once_initial : cached_once initial.
Proof.
  split.
  - intros key. unfold cache_entry, initial. cbn. rewrite lookup_empty. apply NoDup_nil_2.
  - intros key key' x H. unfold cache_entry, initial in H. cbn in H.
    rewrite lookup_empty in H. by apply elem_of_nil in H.
Qed.

(** X14: the cache only grows, and holds no context twice.  From a state
    the manager can be in, whatever acquisitions, requests, releases and uses
    follow, every entry of the cache keeps the contexts it has, in their
    order, at its front; no entry lists a context twice, and no context is
    in two entries. *)
Theorem cache_grows_without_repeats (s s' : State) :
  reachable s -> rtc step s s' ->
  forall key,
    cache_entry s key `prefix_of` cache_entry s' key /\
    NoDup (cache_entry s' key) /\
    forall key' x, x ∈ cache_entry s' key -> x ∈ cache_entry s' key' -> key = key'.
Proof.
  intros Hreach Hsteps key.
  destruct (steps_cached_once _ _ Hreach wf_initial cached_once_initial)
    as (Hwf & Honce & _).
  destruct (steps_cached_once _ _ Hsteps Hwf Honce) as (_ & [Hnd Hdis] & Hpre).
  split_and!; [apply Hpre|apply Hnd|apply Hdis].
Qed.

(** The cached context an acquisition settled on is found again in every
    state with the same cache and the same exclusivity of the contexts. *)
Lemma reacquire m pc f req s a sa s' :
  wf s ->
  acquire m pc (Some f) req s = Ok (Some a, sa) ->
  getType f <> CONSTRAINED_TYPE ->
  contexts_ s' = contexts_ sa ->
  (forall x, unique s' x = unique s x) ->
  cached_lookup s' (name pc, getType f) = Some a.
Proof.
  intros Hwf Hacq Hne Hc Hu.
  destruct (acquire_cases CONSTRAINED_TYPE m pc f req s Hwf) as (a' & s1 & Heq & _ & Hcase).
  rewrite Heq in Hacq. injection Hacq as <- <-.
  unfold cached_lookup. rewrite Hc.
  destruct Hcase as [(Hlook & _ & _ & Hc1)|(Hlook & -> & _ & Hc1)].
  - rewrite Hc1. unfold cached_lookup in Hlook.
    destruct (contexts_ s !! (name pc, getType f)) as [l|]; [|discriminate].
    rewrite <- Hlook. by apply find_same.
  - destruct (decide (getType f <> CONSTRAINED_TYPE)); [|done].
    rewrite Hc1, lookup_insert_eq. apply find_first.
    + apply Forall_forall. intros b Hb. rewrite Hu.
      by apply (proj1 (cached_lookup_None s (name pc, getType f))).
    + rewrite Hu. unfold unique.
      by rewrite (proj2 Hwf _ (new_addr_fresh s)).
Qed.

(** X15: when a request has returned a context of a factory that is not
    of the constrained type, and the caller has given the context back, the
    same request made again works on that same context: if it returns a
    context at all, it is the identical one. *)
Theorem request_reuses_context (m : PlanningContextManager)
    (planning_scene : option PlanningScene) (req : MotionPlanRequest)
    (uca uca' : bool) (s : State) (a : nat) (code : MoveItErrorCodes) (s1 : State)
    (b : nat) (code' : MoveItErrorCodes) (s2 : State) :
  wf s ->
  (forall pc f, find_config m req = Some pc -> select_factory m pc req = Ok (Some f) ->
     getType f <> CONSTRAINED_TYPE) ->
  getPlanningContext m planning_scene req uca s = Ok (Some a, code, s1) ->
  getPlanningContext m planning_scene req uca' (release a s1) = Ok (Some b, code', s2) ->
  b = a.
Proof.
  intros Hwf Htype Hreq1 Hreq2.
  destruct (request_cases _ _ _ _ _ _ _ _ _ _ _ Hreq1)
    as [(? & _)|(sc & pc & f & a0 & sa & c & -> & Hg & Hpc & Hsel & Hacq & Hc & Hfin)];
    [discriminate|].
  destruct (finish_cases _ _ _ _ _ _ _ _ _ Hfin) as [(c' & Ha & _ & Hs1)|(c' & ? & _)];
    [|discriminate].
  injection Ha as ->. subst s1.
  destruct (request_cases _ _ _ _ _ _ _ _ _ _ _ Hreq2)
    as [(? & _)|(sc' & pc' & f' & b0 & sb & cb & _ & _ & Hpc' & Hsel' & Hacq' & _ & Hfin')];
    [discriminate|].
  rewrite Hpc in Hpc'. injection Hpc' as <-.
  rewrite Hsel in Hsel'. injection Hsel' as <-.
  destruct (finish_cases _ _ _ _ _ _ _ _ _ Hfin') as [(cb' & Hb & _ & _)|(cb' & ? & _)];
    [|discriminate].
  injection Hb as ->.
  assert (Hlook : cached_lookup (release a0 (store a0 c' sa)) (name pc, getType f) = Some a0).
  { eapply reacquire; [exact Hwf|exact Hacq|by eapply Htype|done|].
    intros x. unfold unique.
    rewrite (holders_of_release_hold s (store a0 c' sa) a0 x); [done|].
    exact (acquire_holders _ _ _ _ _ _ _ _ Hacq). }
  rewrite (acquire_hit _ _ _ _ _ _ _ Hlook) in Hacq'. by injection Hacq' as <- _.
Qed.

End Sharing.

End ManagerMore.

(** * The registry of planner allocators *)

Module Registry.
Import Allocator.

(** A [ConfiguredPlannerAllocator]: the allocator of an algorithm type, or
    the empty function object. *)
Abbreviation ConfiguredPlannerAllocator := (option PlannerType) (only parsing).

(** [registerPlannerAllocator(planner_id, pa)], which the header defines,
    stores the allocator under the id in [known_planners_]. *)
Definition registerPlannerAllocator (planner_id : string) (T : PlannerType)
    (known_planners_ : gmap string PlannerType) : gmap string PlannerType :=
  <[planner_id := T]> known_planners_.

(** The calls of [registerDefaultPlanners], in their order. *)
Definition default_planners : list (string * PlannerType) :=
  [ ("geometric::AnytimePathShortening", AnytimePathShortening);
    ("geometric::BFMT", BFMT);
    ("geometric::BiEST", BiEST);
    ("geometric::BiTRRT", BiTRRT);
    ("geometric::BKPIECE", BKPIECE1);
    ("geometric::EST", EST);
    ("geometric::FMT", FMT);
    ("geometric::KPIECE", KPIECE1);
    ("geometric::LazyPRM", LazyPRM);
    ("geometric::LazyPRMstar", LazyPRMstar);
    ("geometric::LazyRRT", LazyRRT);
    ("geometric::LBKPIECE", LBKPIECE1);
    ("geometric::LBTRRT", LBTRRT);
    ("geometric::PDST", PDST);
    ("geometric::PRM", PRM);
    ("geometric::PRMstar", PRMstar);
    ("geometric::ProjEST", ProjEST);
    ("geometric::RRT", RRT);
    ("geometric::RRTConnect", RRTConnect);
    ("geometric::RRTstar", RRTstar);
    ("geometric::SBL", SBL);
    ("geometric::SPARS", SPARS);
    ("geometric::SPARStwo", SPARStwo);
    ("geometric::STRIDE", STRIDE);
    ("geometric::TRRT", TRRT);
    ("geometric::PRMcustom", PRMcustom) ].

Definition registerDefaultPlanners (known_planners_ : gmap string PlannerType)
  : gmap string PlannerType :=
  foldl (fun known entry => registerPlannerAllocator (fst entry) (snd entry) known)
    known_planners_ default_planners.

(** [plannerSelector(planner)] *)
Definition plannerSelector (known_planners_ : gmap string PlannerType)
    (planner : string) : ConfiguredPlannerAllocator :=
  known_planners_ !! planner.

Lemma NoDup_fst_unique {A B} (l : list (A * B)) k v1 v2 :
  NoDup (fst <$> l) -> (k, v1) ∈ l -> (k, v2) ∈ l -> v1 = v2.
Proof.
  induction l as [|[k0 v0] l IH]; cbn; intros Hnd H1 H2.
  - by apply elem_of_nil in H1.
  - apply NoDup_cons in Hnd as [Hk Hnd].
    assert (Hout : forall v, (k0, v) ∉ l).
    { intros v Hin. apply Hk. apply list_elem_of_fmap. by exists (k0, v). }
    apply elem_of_cons in H1 as [E1|H1]; apply elem_of_cons in H2 as [E2|H2].
    + congruence.
    + injection E1 as -> ->. by apply Hout in H2.
    + injection E2 as -> ->. by apply Hout in H1.
    + by apply IH.
Qed.

Lemma lookup_register_all (l : list (string * PlannerType)) known id :
  NoDup (fst <$> l) ->
  foldl (fun known entry => registerPlannerAllocator (fst entry) (snd entry) known)
    known l !! id =
  match list_find (fun entry => fst entry = id) l with
  | Some (_, (_, T)) => Some T
  | None => known !! id
  end.
Proof.
  revert known. induction l as [|[k T] l IH]; intros known Hnd; cbn; [done|].
  cbn in Hnd. apply NoDup_cons in Hnd as [Hk Hnd].
  rewrite (IH _ Hnd). unfold registerPlannerAllocator. cbn.
  destruct (decide (k = id)) as [->|Hne].
  - destruct (list_find _ l) as [[i [k' T']]|] eqn:Hfind; cbn.
    + apply list_find_Some in Hfind as (Hi & Hk' & _). cbn in Hk'. subst k'.
      exfalso. apply Hk. apply list_elem_of_fmap. exists (id, T').
      split; [done|]. by eapply list_elem_of_lookup_2.
    + by rewrite lookup_insert_eq.
  - destruct (list_find _ l) as [[i [k' T']]|]; cbn; [done|].
    by rewrite lookup_insert_ne.
Qed.

(** X16: after [registerDefaultPlanners] on an empty registry,
    [plannerSelector] returns for each of the 26 registered ids the allocator
    of the algorithm type registered with it (no registration overwrites
    another), and the empty allocator for every other id. *)
Theorem plannerSelector_default_planners (planner : string) :
  NoDup (fst <$> default_planners) /\
  length default_planners = 26 /\
  (forall T, plannerSelector (registerDefaultPlanners ∅) planner = Some T <->
     (planner, T) ∈ default_planners) /\
  (plannerSelector (registerDefaultPlanners ∅) planner = None <->
     planner ∉ (fst <$> default_planners)).
Proof.
  assert (Hnd : NoDup (fst <$> default_planners)).
  { apply (bool_decide_unpack _). vm_compute. exact I. }
  split; [exact Hnd|]. split; [reflexivity|].
  unfold plannerSelector, registerDefaultPlanners.
  rewrite (lookup_register_all _ _ _ Hnd), lookup_empty.
  destruct (list_find _ default_planners) as [[i [k T']]|] eqn:Hfind.
  - apply list_find_Some in Hfind as (Hi & Hk & _). cbn in Hk. subst k.
    assert (Hin : (planner, T') ∈ default_planners) by (by eapply list_elem_of_lookup_2).
    split.
    + intros T. split.
      * by intros [= <-].
      * intros HT. f_equal.
        apply (NoDup_fst_unique default_planners planner T' T Hnd Hin HT).
    + split; [discriminate|]. intros Hnot. exfalso. apply Hnot.
      apply list_elem_of_fmap. by exists (planner, T').
  - split.
    + intros T. split; [discriminate|]. intros HT.
      apply list_find_None in Hfind. rewrite Forall_forall in Hfind.
      exfalso. by apply (Hfind _ HT).
    + split; [|done]. intros _ Hin.
      apply list_elem_of_fmap in Hin as [[k T] [-> HT]].
      apply list_find_None in Hfind. rewrite Forall_forall in Hfind.
      by apply (Hfind _ HT).
Qed.

End Registry.

(** * Instances of the further properties *)

Module AllocatorInstances.
Import Allocator AllocatorTheory AllocatorMore.

Definition spec_of (kv : gmap string string) : ModelBasedPlanningContextSpecification :=
  {| config_ := kv |}.

Definition range_config : gmap string string := {[ "range" := "0.5" ]}.

(** X2 (instance): a configuration without the multi-query key. *)
Lemma single_shot_allocation_witness :
  read_bool boost_lexical_cast_bool (config_ (spec_of range_config))
    "multi_query_planning_enabled" = Ok false /\
  exists s',
    Allocator.allocatePlanner boost_lexical_cast_bool no_file RRTConnect 0
      "arm[RRTConnect]" (spec_of range_config) initial = Ok (Some (new_addr initial), s') /\
    planners_ s' = planners_ initial.
Proof.
  assert (H : read_bool boost_lexical_cast_bool (config_ (spec_of range_config))
                "multi_query_planning_enabled" = Ok false) by (vm_compute; reflexivity).
  split; [exact H|].
  destruct (single_shot_allocation boost_lexical_cast_bool no_file RRTConnect 0
              "arm[RRTConnect]" (spec_of range_config) initial H)
    as (s' & Hacq & _ & _ & Hp & _).
  exists s'. split; [exact Hacq|exact Hp].
Defined.

Lemma prm_first_allocation :
  exists s',
    Allocator.allocatePlanner boost_lexical_cast_bool no_file PRM 0 "arm[PRM]"
      (spec_of prm_config) initial = Ok (Some (new_addr initial), s') /\
    objects s' = <[new_addr initial :=
                     impl_final no_file PRM 0 "arm[PRM]" (spec_of prm_config) false
                       "/tmp/arm_prm.graph"]> (objects initial) /\
    planners_ s' = <[ "arm[PRM]" := Some (new_addr initial)]> (planners_ initial) /\
    planner_data_storage_paths_ s' =
      <[ "arm[PRM]" := "/tmp/arm_prm.graph"]> (planner_data_storage_paths_ initial).
Proof.
  rewrite (allocatePlanner_no_live boost_lexical_cast_bool no_file PRM 0 "arm[PRM]"
             (spec_of prm_config) initial false true);
    [|vm_compute; reflexivity|apply lookup_empty|vm_compute; reflexivity
     |vm_compute; reflexivity].
  rewrite allocatePlannerImpl_eq. eexists. split_and!; reflexivity.
Defined.

(** X3 (instance): the first allocation of a PRM planner that is to be
    stored. *)
Lemma first_multi_query_allocation_witness :
  read_bool boost_lexical_cast_bool prm_config "multi_query_planning_enabled" = Ok true /\
  planners_ initial !! "arm[PRM]" = None /\
  read_bool boost_lexical_cast_bool prm_config "load_planner_data" = Ok false /\
  read_bool boost_lexical_cast_bool prm_config "store_planner_data" = Ok true /\
  exists s',
    Allocator.allocatePlanner boost_lexical_cast_bool no_file PRM 0 "arm[PRM]"
      (spec_of prm_config) initial = Ok (Some (new_addr initial), s') /\
    planner_data_storage_paths_ s' !! "arm[PRM]" = Some "/tmp/arm_prm.graph".
Proof.
  split_and!; [vm_compute; reflexivity|apply lookup_empty|vm_compute; reflexivity
              |vm_compute; reflexivity|].
  destruct (first_multi_query_allocation boost_lexical_cast_bool no_file PRM 0 "arm[PRM]"
              (spec_of prm_config) initial false true)
    as (s' & Hacq & _ & _ & Hd);
    [vm_compute; reflexivity|apply lookup_empty|vm_compute; reflexivity
    |vm_compute; reflexivity|].
  exists s'. split; [exact Hacq|]. rewrite Hd. apply lookup_insert_eq.
Defined.

(** X4 (instance): the second allocation of that PRM planner. *)
Lemma reuse_seeds_from_live_instance_witness :
  exists s a old,
    supports_persistence PRM = true /\
    read_bool boost_lexical_cast_bool prm_config "multi_query_planning_enabled" = Ok true /\
    planners_ s !! "arm[PRM]" = Some (Some a) /\
    objects s !! a = Some old /\
    exists s' pl,
      Allocator.allocatePlanner boost_lexical_cast_bool no_file PRM 0 "arm[PRM]"
        (spec_of prm_config) s = Ok (Some (new_addr s), s') /\
      objects s' !! new_addr s = Some pl /\
      numVertices (planner_graph pl) = numVertices (planner_graph old).
Proof.
  destruct prm_first_allocation as (s & _ & Ho & Hp & _).
  assert (Hlive : planners_ s !! "arm[PRM]" = Some (Some (new_addr initial)))
    by (rewrite Hp; apply lookup_insert_eq).
  assert (Hold : objects s !! new_addr initial =
                 Some (impl_final no_file PRM 0 "arm[PRM]" (spec_of prm_config) false
                         "/tmp/arm_prm.graph"))
    by (rewrite Ho; apply lookup_insert_eq).
  assert (Hmq : read_bool boost_lexical_cast_bool prm_config
                  "multi_query_planning_enabled" = Ok true) by (vm_compute; reflexivity).
  eexists s, (new_addr initial), _.
  split_and!; [reflexivity|exact Hmq|exact Hlive|exact Hold|].
  destruct (reuse_seeds_from_live_instance boost_lexical_cast_bool no_file PRM 0 "arm[PRM]"
              (spec_of prm_config) s _ _ eq_refl Hmq Hlive Hold)
    as (s' & pl & Hacq & _ & Hpl & _ & Hv & _).
  exists s', pl. split_and!; [exact Hacq|exact Hpl|exact Hv].
Defined.

(** X5 (instance): the first allocation of the PRM planner keeps the
    invariant of the empty allocator. *)
Lemma allocation_frame_witness :
  exists s',
    Allocator.allocatePlanner boost_lexical_cast_bool no_file PRM 0 "arm[PRM]"
      (spec_of prm_config) initial = Ok (Some (new_addr initial), s') /\
    paths_have_planners s'.
Proof.
  destruct prm_first_allocation as (s' & Hacq & _).
  exists s'. split; [exact Hacq|].
  destruct (allocation_frame boost_lexical_cast_bool no_file PRM 0 "arm[PRM]"
              (spec_of prm_config) initial _ s' Hacq) as (_ & _ & _ & Hinv).
  apply Hinv. intros n [x Hx]. unfold initial in Hx. cbn in Hx.
  rewrite lookup_empty in Hx. discriminate.
Defined.

End AllocatorInstances.

Module ManagerInstances.
Import Manager ManagerTheory ManagerMore.

(** With the plain context class a request for the group arm returns a
    context in every well-formed state. *)
Lemma plain_request_returns (s : State) :
  wf s ->
  exists a s', request_with plain_methods [] empty_request s = Ok (Some a, SUCCESS, s').
Proof.
  intros Hwf.
  destruct (@acquire_returns_object plain_methods CONSTRAINED (manager [] 0)
              (arm_config []) joint_factory empty_request s Hwf)
    as (a & s1 & c & Hacq & Hc).
  exists a, (store a c s1). unfold request_with.
  etrans.
  - apply (@getPlanningContext_acquired boost_lexical_cast_bool plain_methods CONSTRAINED
             JOINT (manager [] 0) 0 empty_request false s (arm_config [])
             (Some joint_factory) a s1 c); [discriminate|reflexivity|reflexivity| |exact Hc].
    exact Hacq.
  - reflexivity.
Qed.

(** X10 (instance): a request on the empty cache. *)
Lemma request_outcome_witness :
  exists a s',
    request_with plain_methods [] empty_request initial = Ok (Some a, SUCCESS, s') /\
    holders_of s' a = S (holders_of initial a).
Proof.
  destruct (plain_request_returns initial wf_initial) as (a & s' & Hreq).
  exists a, s'. split; [exact Hreq|].
  destruct (@request_outcome boost_lexical_cast_bool plain_methods CONSTRAINED JOINT
              (manager [] 0) (Some 0) empty_request false initial _ _ _ Hreq) as [H _].
  destruct (H a eq_refl) as (_ & _ & Hh & _). exact Hh.
Defined.

(** A manager without any state space factory. *)
Definition bare_manager : PlanningContextManager :=
  {| planner_configs_ := {[ "arm" := arm_config [] ]};
     state_space_factories_ := [];
     max_goal_samples_ := 10;
     max_state_sampling_attempts_ := 4;
     max_goal_sampling_attempts_ := 1000;
     max_planning_threads_ := 4;
     max_solution_segment_length_ := 0;
     minimum_waypoint_count_ := 2 |}.

(** X11 (instance): a request to a manager without factories. *)
Lemma empty_factory_is_dereferenced_witness :
  group_name empty_request <> "" /\
  find_config bare_manager empty_request = Some (arm_config []) /\
  select_factory boost_lexical_cast_bool CONSTRAINED JOINT bare_manager
    (arm_config []) empty_request = Ok None /\
  @getPlanningContext boost_lexical_cast_bool plain_methods CONSTRAINED JOINT
    bare_manager (Some 0) empty_request false initial = Throw null_dereference.
Proof.
  split_and!; [discriminate|reflexivity|reflexivity|].
  apply (@empty_factory_is_dereferenced boost_lexical_cast_bool plain_methods
           CONSTRAINED JOINT bare_manager 0 empty_request false initial (arm_config []));
    [discriminate|reflexivity|reflexivity].
Defined.

(** X13 (instance): a context is acquired on the empty cache and kept; a
    second one is acquired and given back, and a third acquisition follows.
    Neither returns the first context. *)
Lemma acquisition_is_exclusive_witness :
  wf initial /\
  exists a s1 b s2 c s3,
    acquire_with plain_methods 0 joint_factory empty_request initial = Ok (Some a, s1) /\
    acquire_with plain_methods 0 joint_factory empty_request s1 = Ok (Some b, s2) /\
    acquire_with plain_methods 0 joint_factory empty_request (release b s2)
    = Ok (Some c, s3) /\
    b <> a /\ c <> a.
Proof.
  split; [exact wf_initial|].
  destruct (@acquire_total plain_methods CONSTRAINED (manager [] 0) (arm_config [])
              joint_factory empty_request initial) as (a & s1 & Hacq).
  destruct (@acquire_total plain_methods CONSTRAINED (manager [] 0) (arm_config [])
              joint_factory empty_request s1) as (b & s2 & Hacq').
  destruct (@acquire_total plain_methods CONSTRAINED (manager [] 0) (arm_config [])
              joint_factory empty_request (release b s2)) as (c & s3 & Hacq'').
  destruct (@acquisition_is_exclusive boost_lexical_cast_bool plain_methods CONSTRAINED
              JOINT (manager [] 0) (arm_config []) joint_factory empty_request
              initial a s1 wf_initial Hacq)
    as (_ & _ & Hlater).
  assert (Hb : b <> a).
  { destruct (Hlater s1 (rtc_refl _ _)) as (_ & Hother & _).
    exact (Hother _ _ _ _ _ _ Hacq'). }
  exists a, s1, b, s2, c, s3. split_and!; [exact Hacq|exact Hacq'|exact Hacq''|exact Hb|].
  assert (Hsteps : rtc (@step_keeping boost_lexical_cast_bool plain_methods CONSTRAINED
                          JOINT a) s1 (release b s2)).
  { eapply rtc_l; [eapply keeping_acquire; exact Hacq'|].
    apply rtc_once. by apply keeping_release. }
  destruct (Hlater _ Hsteps) as (_ & Hother & _).
  exact (Hother _ _ _ _ _ _ Hacq'').
Defined.

(** X14 (instance): one acquisition on the empty cache. *)
Lemma cache_grows_without_repeats_witness :
  @reachable boost_lexical_cast_bool plain_methods CONSTRAINED JOINT initial /\
  exists s',
    rtc (@step boost_lexical_cast_bool plain_methods CONSTRAINED JOINT) initial s' /\
    NoDup (cache_entry s' ("arm", JOINT)).
Proof.
  split; [apply rtc_refl|].
  destruct (@acquire_total plain_methods CONSTRAINED (manager [] 0) (arm_config [])
              joint_factory empty_request initial) as (a & s1 & Hacq).
  assert (Hsteps : rtc (@step boost_lexical_cast_bool plain_methods CONSTRAINED JOINT)
                     initial s1).
  { apply rtc_once. eapply step_acquire. exact Hacq. }
  exists s1. split; [exact Hsteps|].
  destruct (@cache_grows_without_repeats boost_lexical_cast_bool plain_methods
              CONSTRAINED JOINT initial s1 (rtc_refl _ _) Hsteps ("arm", JOINT))
    as (_ & Hnd & _).
  exact Hnd.
Defined.

(** X15 (instance): the same request twice, with the context given back in
    between. *)
Lemma request_reuses_context_witness :
  wf initial /\
  exists a s1 b s2,
    request_with plain_methods [] empty_request initial = Ok (Some a, SUCCESS, s1) /\
    request_with plain_methods [] empty_request (release a s1) = Ok (Some b, SUCCESS, s2) /\
    b = a.
Proof.
  split; [exact wf_initial|].
  destruct (plain_request_returns initial wf_initial) as (a & s1 & Hreq).
  assert (Hwf1 : wf s1).
  { exact (proj1 (@request_effect boost_lexical_cast_bool plain_methods CONSTRAINED JOINT
                    _ _ _ _ _ _ _ _ wf_initial Hreq)). }
  destruct (plain_request_returns (release a s1) (release_wf a s1 Hwf1)) as (b & s2 & Hreq').
  exists a, s1, b, s2. split_and!; [exact Hreq|exact Hreq'|].
  apply (@request_reuses_context boost_lexical_cast_bool plain_methods CONSTRAINED JOINT
           (manager [] 0) (Some 0) empty_request false false initial a SUCCESS s1
           b SUCCESS s2 wf_initial); [|exact Hreq|exact Hreq'].
  intros pc f H1 H2. vm_compute in H1. injection H1 as <-.
  vm_compute in H2. injection H2 as <-. discriminate.
Defined.

End ManagerInstances.
